(** * mygbpy: a shallow embedding of the Game Boy memory bus and CPU core

    The development follows the two Python modules of the emulator:
    [memory.py] (mappers and the address decoder) and [cpu.py] (register
    file, flag helper, dispatch table and the instruction handlers).

    Python integers are unbounded, so every register and every byte is a
    [Z] and each mask of the source ([& 0xFF], [& 0xFFFF], [& 0xF0]) is
    written out with [Z.land].  A [bytes] / [bytearray] object is a
    [list Z]; indexing it out of range raises, which is modelled by the
    [result] type below.

    A method of [CPU] is a function from the object to a [CPU.run]: the
    value returned or the exception raised, the object as the method
    leaves it, and the list of the bus accesses it made.  The Python
    object is mutated in place, so what a method has changed before it
    raises is still changed afterwards; [CPU.final] keeps that. *)

From stdpp Require Import base decidable numbers list strings gmap.
From Equations Require Import Equations.

Local Open Scope Z_scope.

(** ** Python exceptions and results *)

(** One constructor per [raise] site of the source; the arguments are the
    values the f-string of that site interpolates into the message.
    [IndexError] and [ByteRangeError] are the two exceptions the built-in
    [bytes] / [bytearray] subscript can raise. *)
Inductive exn : Type :=
  | InvalidAddress (address : Z)
      (* ValueError(f"Invalid memory address: 0x{address:04X}") *)
  | ProhibitedWrite (address : Z)
      (* ValueError(f"Cannot write to unusable memory: 0x{address:04X}") *)
  | UnsupportedMapper (mbc_type : Z)
      (* NotImplementedError(f"MBC type 0x{mbc_type:02X} not implemented") *)
  | UnimplementedOpcode (opcode : Z)
      (* NotImplementedError(f"Opcode 0x{opcode:02X} not implemented") *)
  | IndexError
  | ByteRangeError.

Inductive result (A : Type) : Type :=
  | Ok (a : A)
  | Raise (e : exn).
Arguments Ok {A} a.
Arguments Raise {A} e.

(** ** Byte buffers *)

Module Buf.

(** [b[i]] on a [bytes] or [bytearray]: negative indices count from the
    end, anything outside the buffer raises [IndexError]. *)
Definition getitem (b : list Z) (i : Z) : result Z :=
  let j := if decide (i < 0) then i + Z.of_nat (length b) else i in
  if decide (j < 0) then Raise IndexError
  else match b !! Z.to_nat j with
       | Some x => Ok x
       | None => Raise IndexError
       end.

(** [b[i] = v] on a [bytearray]: the index is checked first, then the
    value, which must be in [range(256)]. *)
Definition setitem (b : list Z) (i v : Z) : result (list Z) :=
  let j := if decide (i < 0) then i + Z.of_nat (length b) else i in
  if decide (j < 0) then Raise IndexError
  else if decide (Z.of_nat (length b) <= j) then Raise IndexError
  else if decide (0 <= v < 256) then Ok (<[Z.to_nat j := v]> b)
  else Raise ByteRangeError.

(** [bytearray(n)]: [n] zero bytes. *)
Definition bytearray (n : Z) : list Z := replicate (Z.to_nat n) 0.

End Buf.

(** ** memory.py: mappers *)

Module MBC.

(** The two concrete subclasses of the abstract class [MBC]. *)
Inductive t : Type :=
  | NoMBC (rom : list Z)
  | MBC1 (rom : list Z) (rom_bank : Z).

(** [NoMBC.__init__] and [MBC1.__init__]. *)
Definition NoMBC_init (rom : list Z) : t := NoMBC rom.
Definition MBC1_init (rom : list Z) : t := MBC1 rom 0x01.

(** [value or 0x01]: Python's [or] returns its left operand unless it is
    falsy, and the only falsy integer is 0. *)
Definition py_or (value default : Z) : Z :=
  if decide (value = 0) then default else value.

Definition read (m : t) (address : Z) : result Z :=
  match m with
  | NoMBC rom => Buf.getitem rom address
  | MBC1 rom rom_bank =>
      if decide (address < 0x4000) then Buf.getitem rom address
      else Buf.getitem rom (address - 0x4000 + rom_bank * 0x4000)
  end.

Definition write (m : t) (address value : Z) : t :=
  match m with
  | NoMBC rom => NoMBC rom
  | MBC1 rom rom_bank =>
      if decide (0x2000 <= address <= 0x3FFF) then
        let value := Z.land value 31 (* 0b11111 *) in
        MBC1 rom (py_or value 0x01)
      else MBC1 rom rom_bank
  end.

Definition detect_mbc (rom : list Z) : result t :=
  match Buf.getitem rom 0x0147 with
  | Raise e => Raise e
  | Ok mbc_type =>
      if decide (mbc_type = 0x00) then Ok (NoMBC_init rom)
      else if decide (mbc_type = 0x01 \/ mbc_type = 0x02 \/ mbc_type = 0x03)
           then Ok (MBC1_init rom)
           else Raise (UnsupportedMapper mbc_type)
  end.

End MBC.

(** ** memory.py: the bus *)

Module Memory.

Record t : Type := mk {
  mbc : MBC.t;
  vram : list Z;
  eram : list Z;
  wram : list Z;
  oam : list Z;
  io : list Z;
  hram : list Z;
  ie_register : Z
}.

(** The attributes [Memory.__init__] sets once the mapper is known. *)
Definition fresh (mbc : MBC.t) : t :=
  {| mbc := mbc;
     vram := Buf.bytearray 0x2000;
     eram := Buf.bytearray 0x2000;
     wram := Buf.bytearray 0x2000;
     oam := Buf.bytearray 0xA0;
     io := Buf.bytearray 0x80;
     hram := Buf.bytearray 0x7F;
     ie_register := 0x00 |}.

(** [Memory.__init__]; it raises what [detect_mbc] raises. *)
Definition init (rom : list Z) : result t :=
  match MBC.detect_mbc rom with
  | Raise e => Raise e
  | Ok mbc => Ok (fresh mbc)
  end.

(** Assignments to one attribute of [self]. *)
Definition set_mbc (m : t) (x : MBC.t) : t :=
  mk x (vram m) (eram m) (wram m) (oam m) (io m) (hram m) (ie_register m).
Definition set_vram (m : t) (x : list Z) : t :=
  mk (mbc m) x (eram m) (wram m) (oam m) (io m) (hram m) (ie_register m).
Definition set_eram (m : t) (x : list Z) : t :=
  mk (mbc m) (vram m) x (wram m) (oam m) (io m) (hram m) (ie_register m).
Definition set_wram (m : t) (x : list Z) : t :=
  mk (mbc m) (vram m) (eram m) x (oam m) (io m) (hram m) (ie_register m).
Definition set_oam (m : t) (x : list Z) : t :=
  mk (mbc m) (vram m) (eram m) (wram m) x (io m) (hram m) (ie_register m).
Definition set_io (m : t) (x : list Z) : t :=
  mk (mbc m) (vram m) (eram m) (wram m) (oam m) x (hram m) (ie_register m).
Definition set_hram (m : t) (x : list Z) : t :=
  mk (mbc m) (vram m) (eram m) (wram m) (oam m) (io m) x (ie_register m).

(** [buf[i] = value] followed by storing the buffer back with [set]. *)
Definition store (set : list Z -> t) (buf : list Z) (i value : Z) : result t :=
  match Buf.setitem buf i value with
  | Ok buf' => Ok (set buf')
  | Raise e => Raise e
  end.

(** [Memory.read].  The echo branch calls [read] again on an address
    that is 0x2000 lower, which is the measure of the recursion. *)
Equations read (m : t) (address : Z) : result Z by wf (Z.to_nat address) lt :=
  read m address :=
    if decide (0x0000 <= address <= 0x7FFF) then MBC.read (mbc m) address
    else if decide (0x8000 <= address <= 0x9FFF) then
      Buf.getitem (vram m) (address - 0x8000)
    else if decide (0xA000 <= address <= 0xBFFF) then
      Buf.getitem (eram m) (address - 0xA000)
    else if decide (0xC000 <= address <= 0xCFFF) then
      Buf.getitem (wram m) (address - 0xC000)
    else if decide (0xD000 <= address <= 0xDFFF) then
      Buf.getitem (wram m) (0x1000 + (address - 0xD000))
    else match decide (0xE000 <= address <= 0xFDFF) with
    | left _ => read m (address - 0x2000)
    | right _ =>
    if decide (0xFE00 <= address <= 0xFE9F) then
      Buf.getitem (oam m) (address - 0xFE00)
    else if decide (0xFEA0 <= address <= 0xFEFF) then Ok 0x00
    else if decide (0xFF00 <= address <= 0xFF7F) then
      Buf.getitem (io m) (address - 0xFF00)
    else if decide (0xFF80 <= address <= 0xFFFE) then
      Buf.getitem (hram m) (address - 0xFF80)
    else if decide (address = 0xFFFF) then Ok (ie_register m)
    else Raise (InvalidAddress address)
    end.
Next Obligation. lia. Qed.

(** [Memory.write].  A write either updates exactly one attribute or
    raises before any update, so the result is the new bus or the
    exception (with the bus as it was). *)
Equations write (m : t) (address value : Z) : result t
  by wf (Z.to_nat address) lt :=
  write m address value :=
    let value := Z.land value 0xFF in
    if decide (0x0000 <= address <= 0x7FFF) then
      Ok (set_mbc m (MBC.write (mbc m) address value))
    else if decide (0x8000 <= address <= 0x9FFF) then
      store (set_vram m) (vram m) (address - 0x8000) value
    else if decide (0xA000 <= address <= 0xBFFF) then
      store (set_eram m) (eram m) (address - 0xA000) value
    else if decide (0xC000 <= address <= 0xCFFF) then
      store (set_wram m) (wram m) (address - 0xC000) value
    else if decide (0xD000 <= address <= 0xDFFF) then
      store (set_wram m) (wram m) (0x1000 + (address - 0xD000)) value
    else match decide (0xE000 <= address <= 0xFDFF) with
    | left _ => write m (address - 0x2000) value
    | right _ =>
    if decide (0xFE00 <= address <= 0xFE9F) then
      store (set_oam m) (oam m) (address - 0xFE00) value
    else if decide (0xFEA0 <= address <= 0xFEFF) then
      Raise (ProhibitedWrite address)
    else if decide (0xFF00 <= address <= 0xFF7F) then
      store (set_io m) (io m) (address - 0xFF00) value
    else if decide (0xFF80 <= address <= 0xFFFE) then
      store (set_hram m) (hram m) (address - 0xFF80) value
    else Raise (InvalidAddress address)
    end.
Next Obligation. lia. Qed.

End Memory.

(** ** cpu.py *)

Module CPU.

(** One entry of the bus log: a call of [Memory.__getitem__] or of
    [Memory.__setitem__] made by the CPU. *)
Inductive access : Type :=
  | BusRead (address : Z)
  | BusWrite (address value : Z).

(** The attributes of a [CPU] object.  [instructions] is not a field: it
    is built once from the methods of the class and never reassigned, see
    [build_instruction_table]. *)
Record t : Type := mk {
  memory : Memory.t;
  _pc : Z;
  _sp : Z;
  _a : Z;
  _f : Z;
  _b : Z;
  _c : Z;
  _d : Z;
  _e : Z;
  _h : Z;
  _l : Z;
  halted : bool
}.

Definition with_memory (s : t) (x : Memory.t) : t :=
  mk x (_pc s) (_sp s) (_a s) (_f s) (_b s) (_c s) (_d s) (_e s) (_h s) (_l s) (halted s).
Definition with_pc (s : t) (x : Z) : t :=
  mk (memory s) x (_sp s) (_a s) (_f s) (_b s) (_c s) (_d s) (_e s) (_h s) (_l s) (halted s).
Definition with_sp (s : t) (x : Z) : t :=
  mk (memory s) (_pc s) x (_a s) (_f s) (_b s) (_c s) (_d s) (_e s) (_h s) (_l s) (halted s).
Definition with_a (s : t) (x : Z) : t :=
  mk (memory s) (_pc s) (_sp s) x (_f s) (_b s) (_c s) (_d s) (_e s) (_h s) (_l s) (halted s).
Definition with_f (s : t) (x : Z) : t :=
  mk (memory s) (_pc s) (_sp s) (_a s) x (_b s) (_c s) (_d s) (_e s) (_h s) (_l s) (halted s).
Definition with_b (s : t) (x : Z) : t :=
  mk (memory s) (_pc s) (_sp s) (_a s) (_f s) x (_c s) (_d s) (_e s) (_h s) (_l s) (halted s).
Definition with_c (s : t) (x : Z) : t :=
  mk (memory s) (_pc s) (_sp s) (_a s) (_f s) (_b s) x (_d s) (_e s) (_h s) (_l s) (halted s).
Definition with_d (s : t) (x : Z) : t :=
  mk (memory s) (_pc s) (_sp s) (_a s) (_f s) (_b s) (_c s) x (_e s) (_h s) (_l s) (halted s).
Definition with_e (s : t) (x : Z) : t :=
  mk (memory s) (_pc s) (_sp s) (_a s) (_f s) (_b s) (_c s) (_d s) x (_h s) (_l s) (halted s).
Definition with_h (s : t) (x : Z) : t :=
  mk (memory s) (_pc s) (_sp s) (_a s) (_f s) (_b s) (_c s) (_d s) (_e s) x (_l s) (halted s).
Definition with_l (s : t) (x : Z) : t :=
  mk (memory s) (_pc s) (_sp s) (_a s) (_f s) (_b s) (_c s) (_d s) (_e s) (_h s) x (halted s).
Definition with_halted (s : t) (x : bool) : t :=
  mk (memory s) (_pc s) (_sp s) (_a s) (_f s) (_b s) (_c s) (_d s) (_e s) (_h s) (_l s) x.

(** *** The monad of the methods

    A method runs on the object, may mutate it, may raise, and talks to
    the bus.  What it leaves behind is the value it returns or the
    exception, the object as it is at that point (mutations made before
    a [raise] stay), and the bus accesses it made, in order. *)
Record run (A : Type) : Type := Run {
  outcome : result A;
  final : t;
  accesses : list access
}.
Arguments Run {A} outcome final accesses.
Arguments outcome {A} r.
Arguments final {A} r.
Arguments accesses {A} r.

Definition M (A : Type) : Type := t -> run A.

#[export] Instance M_ret : MRet M := fun A a s => Run (Ok a) s [].

#[export] Instance M_bind : MBind M := fun A B f m s =>
  match m s with
  | Run (Raise e) s1 t1 => Run (Raise e) s1 t1
  | Run (Ok a) s1 t1 =>
      match f a s1 with
      | Run o s2 t2 => Run o s2 (t1 ++ t2)
      end
  end.

Definition raise {A : Type} (e : exn) : M A := fun s => Run (Raise e) s [].
Definition gets {A : Type} (f : t -> A) : M A := fun s => Run (Ok (f s)) s [].
Definition modify (f : t -> t) : M unit := fun s => Run (Ok tt) (f s) [].

(** [self.memory[address]] and [self.memory[address] = value]. *)
Definition mem_getitem (address : Z) : M Z := fun s =>
  Run (Memory.read (memory s) address) s [BusRead address].

Definition mem_setitem (address value : Z) : M unit := fun s =>
  match Memory.write (memory s) address value with
  | Ok m' => Run (Ok tt) (with_memory s m') [BusWrite address value]
  | Raise e => Run (Raise e) s [BusWrite address value]
  end.

(** *** Properties *)

Definition pc : M Z := gets _pc.
Definition set_pc (value : Z) : M unit :=
  modify (fun s => with_pc s (Z.land value 0xFFFF)).

Definition sp : M Z := gets _sp.
Definition set_sp (value : Z) : M unit :=
  modify (fun s => with_sp s (Z.land value 0xFFFF)).

Definition a : M Z := gets _a.
Definition set_a (value : Z) : M unit :=
  modify (fun s => with_a s (Z.land value 0xFF)).

Definition f : M Z := gets _f.
Definition set_f (value : Z) : M unit :=
  modify (fun s => with_f s (Z.land value 0xF0)).

Definition b : M Z := gets _b.
Definition set_b (value : Z) : M unit :=
  modify (fun s => with_b s (Z.land value 0xFF)).

Definition c : M Z := gets _c.
Definition set_c (value : Z) : M unit :=
  modify (fun s => with_c s (Z.land value 0xFF)).

Definition d : M Z := gets _d.
Definition set_d (value : Z) : M unit :=
  modify (fun s => with_d s (Z.land value 0xFF)).

Definition e : M Z := gets _e.
Definition set_e (value : Z) : M unit :=
  modify (fun s => with_e s (Z.land value 0xFF)).

Definition h : M Z := gets _h.
Definition set_h (value : Z) : M unit :=
  modify (fun s => with_h s (Z.land value 0xFF)).

Definition l : M Z := gets _l.
Definition set_l (value : Z) : M unit :=
  modify (fun s => with_l s (Z.land value 0xFF)).

(** *** Flag handling *)

Definition bit_of (x : bool) : Z := if x then 1 else 0.

(** [_set_flags]: a keyword left at [None] keeps its bit.  The method
    assigns [self._f] itself, it does not go through the [f] setter. *)
Definition _set_flags (zero subtract half_carry carry : option bool) : M unit :=
  let flags := 0 in
  let flags := match zero with
               | Some x => Z.lor flags (Z.shiftl (bit_of x) 7) | None => flags end in
  let flags := match subtract with
               | Some x => Z.lor flags (Z.shiftl (bit_of x) 6) | None => flags end in
  let flags := match half_carry with
               | Some x => Z.lor flags (Z.shiftl (bit_of x) 5) | None => flags end in
  let flags := match carry with
               | Some x => Z.lor flags (Z.shiftl (bit_of x) 4) | None => flags end in
  let mask := 0 in
  let mask := match zero with Some _ => Z.lor mask 0x80 | None => mask end in
  let mask := match subtract with Some _ => Z.lor mask 0x40 | None => mask end in
  let mask := match half_carry with Some _ => Z.lor mask 0x20 | None => mask end in
  let mask := match carry with Some _ => Z.lor mask 0x10 | None => mask end in
  modify (fun s =>
    with_f s (Z.lor (Z.land (_f s) (Z.lnot mask)) (Z.land flags mask))).

Definition _check_half_carry_sub (a b : Z) : bool :=
  bool_decide (Z.land a 0x0F < Z.land b 0x0F).

Definition _check_half_carry_add (a b : Z) : bool :=
  bool_decide (Z.land a 0x0F + Z.land b 0x0F > 0x0F).

(** *** 16-bit register pairs *)

Definition af : M Z := hi ← a; lo ← f; mret (Z.lor (Z.shiftl hi 8) lo).
Definition set_af (value : Z) : M unit :=
  let value := Z.land value 0xFFFF in
  set_a (Z.shiftr value 8);; set_f (Z.land value 0xF0).

Definition bc : M Z := hi ← b; lo ← c; mret (Z.lor (Z.shiftl hi 8) lo).
Definition set_bc (value : Z) : M unit :=
  let value := Z.land value 0xFFFF in
  set_b (Z.shiftr value 8);; set_c (Z.land value 0xFF).

Definition de : M Z := hi ← d; lo ← e; mret (Z.lor (Z.shiftl hi 8) lo).
Definition set_de (value : Z) : M unit :=
  let value := Z.land value 0xFFFF in
  set_d (Z.shiftr value 8);; set_e (Z.land value 0xFF).

Definition hl : M Z := hi ← h; lo ← l; mret (Z.lor (Z.shiftl hi 8) lo).
Definition set_hl (value : Z) : M unit :=
  let value := Z.land value 0xFFFF in
  set_h (Z.shiftr value 8);; set_l (Z.land value 0xFF).

(** *** Instruction implementations *)

Definition instr_unimplemented : M unit :=
  p ← pc; opcode ← mem_getitem (p - 1);
  raise (UnimplementedOpcode opcode).

(* 0x00 *)
Definition instr_NOP : M unit := mret tt.

(* 0x01 *)
Definition instr_LD_BC_d16 : M unit :=
  p ← pc; x ← mem_getitem p; set_c x;;
  p ← pc; x ← mem_getitem (p + 1); set_b x;;
  p ← pc; set_pc (p + 2).

(* 0x02 *)
Definition instr_LD_BC_A : M unit :=
  x ← a; p ← bc; mem_setitem p x.

(* 0x03 *)
Definition instr_INC_BC : M unit :=
  x ← bc; set_bc (x + 1).

(* 0x04 *)
Definition instr_INC_B : M unit :=
  old_value ← b;
  x ← b; set_b (x + 1);;
  x ← b;
  _set_flags (Some (bool_decide (x = 0))) None
             (Some (_check_half_carry_add old_value 1)) None.

(* 0x05 *)
Definition instr_DEC_B : M unit :=
  old_value ← b;
  x ← b; set_b (x - 1);;
  x ← b;
  _set_flags (Some (bool_decide (x = 0))) (Some true)
             (Some (_check_half_carry_sub old_value 1)) None.

(* 0x06 *)
Definition instr_LD_B_d8 : M unit :=
  p ← pc; x ← mem_getitem p; set_b x;;
  p ← pc; set_pc (p + 1).

(* 0x07 *)
Definition instr_RLCA : M unit :=
  old_value ← a;
  x ← a; y ← a;
  set_a (Z.land (Z.lor (Z.shiftl x 1) (Z.shiftr y 7)) 0xFF);;
  _set_flags (Some false) (Some false) (Some false)
             (Some (bool_decide (Z.land old_value 0x80 <> 0))).

(* 0x08 *)
Definition instr_LD_a16_SP : M unit :=
  p ← pc; lo ← mem_getitem p;
  p ← pc; hi ← mem_getitem (p + 1);
  let pointer := Z.lor lo (Z.shiftl hi 8) in
  x ← sp; mem_setitem pointer (Z.land x 0x00FF);;
  x ← sp; mem_setitem (pointer + 1) (Z.land (Z.shiftr x 8) 0x00FF);;
  p ← pc; set_pc (p + 2).

(* 0x09 *)
Definition instr_ADD_HL_BC : M unit :=
  old_hl ← hl;
  x ← bc;
  let result := old_hl + x in
  set_hl result;;
  y ← bc;
  _set_flags None (Some false)
             (Some (bool_decide (Z.land old_hl 0x0FFF + Z.land y 0x0FFF > 0x0FFF)))
             (Some (bool_decide (result > 0xFFFF))).

(* 0x0A *)
Definition instr_LD_A_BC : M unit :=
  p ← bc; x ← mem_getitem p; set_a x.

(* 0x0B *)
Definition instr_DEC_BC : M unit :=
  x ← bc; set_bc (x - 1).

(* 0x0C *)
Definition instr_INC_C : M unit :=
  old_value ← c;
  x ← c; set_c (x + 1);;
  x ← c;
  _set_flags (Some (bool_decide (x = 0))) (Some false)
             (Some (_check_half_carry_add old_value 1)) None.

(* 0x0D *)
Definition instr_DEC_C : M unit :=
  old_value ← c;
  x ← c; set_c (x - 1);;
  x ← c;
  _set_flags (Some (bool_decide (x = 0))) (Some true)
             (Some (_check_half_carry_sub old_value 1)) None.

(* 0x0E *)
Definition instr_LD_C_d8 : M unit :=
  p ← pc; x ← mem_getitem p; set_c x;;
  p ← pc; set_pc (p + 1).

(* 0x0F *)
Definition instr_RRCA : M unit :=
  old_value ← a;
  x ← a; y ← a;
  set_a (Z.land (Z.lor (Z.shiftr x 1) (Z.shiftl y 7)) 0xFF);;
  _set_flags (Some false) (Some false) (Some false)
             (Some (bool_decide (Z.land old_value 0x01 <> 0))).

(* 0x10: STOP is implemented as a NOP that skips its operand byte. *)
Definition instr_STOP : M unit :=
  p ← pc; set_pc (p + 1).

(* 0x11 *)
Definition instr_LD_DE_d16 : M unit :=
  p ← pc; lo ← mem_getitem p;
  p ← pc; hi ← mem_getitem (p + 1);
  set_de (Z.lor lo (Z.shiftl hi 8));;
  p ← pc; set_pc (p + 2).

(* 0x12 *)
Definition instr_LD_DE_A : M unit :=
  x ← a; p ← de; mem_setitem p x.

(* 0x13 *)
Definition instr_INC_DE : M unit :=
  x ← de; set_de (x + 1).

(* 0x14 *)
Definition instr_INC_D : M unit :=
  old_value ← d;
  x ← d; set_d (x + 1);;
  x ← d;
  _set_flags (Some (bool_decide (x = 0))) (Some false)
             (Some (_check_half_carry_add old_value 1)) None.

(* 0x15 *)
Definition instr_DEC_D : M unit :=
  old_value ← d;
  x ← d; set_d (x - 1);;
  x ← d;
  _set_flags (Some (bool_decide (x = 0))) (Some true)
             (Some (_check_half_carry_sub old_value 1)) None.

(* 0x16 *)
Definition instr_LD_D_d8 : M unit :=
  p ← pc; x ← mem_getitem p; set_d x.

(* 0x17 *)
Definition instr_RLA : M unit :=
  old_value ← a;
  x ← a; y ← f;
  set_a (Z.land (Z.lor (Z.shiftl x 1) (Z.shiftr (Z.land y 0x10) 4)) 0xFF);;
  _set_flags (Some false) (Some false) (Some false)
             (Some (bool_decide (Z.land old_value 0x80 > 0))).

(* 0x18 *)
Definition instr_JR_s8 : M unit :=
  p ← pc; s8 ← mem_getitem p;
  p ← pc; set_pc (p + 1);;
  let s8 := if decide (s8 >= 0x80) then s8 - 0x100 else s8 in
  p ← pc; set_pc (p + s8).

(* 0x19 *)
Definition instr_ADD_HL_DE : M unit :=
  old_value ← hl;
  x ← hl; y ← de;
  let new_value := x + y in
  set_hl new_value;;
  y ← de;
  _set_flags None (Some false)
             (Some (bool_decide (Z.land old_value 0x0FFF + Z.land y 0x0FFF > 0x0FFF)))
             (Some (bool_decide (new_value > 0xFFFF))).

(* 0x1A *)
Definition instr_LD_A_DE : M unit :=
  p ← de; x ← mem_getitem p; set_a x.

(* 0x1B *)
Definition instr_DEC_DE : M unit :=
  x ← de; set_de (x - 1).

(* 0x1C *)
Definition instr_INC_E : M unit :=
  old_value ← e;
  x ← e; set_e (x + 1);;
  x ← e;
  _set_flags (Some (bool_decide (x = 0))) (Some false)
             (Some (_check_half_carry_add old_value 1)) None.

(* 0x1D *)
Definition instr_DEC_E : M unit :=
  old_value ← e;
  x ← e; set_e (x - 1);;
  x ← e;
  _set_flags (Some (bool_decide (x = 0))) (Some true)
             (Some (_check_half_carry_sub old_value 1)) None.

(* 0x1E *)
Definition instr_LD_E_d8 : M unit :=
  p ← pc; x ← mem_getitem p; set_e x;;
  p ← pc; set_pc (p + 1).

(* 0x21 *)
Definition instr_LD_HL_d16 : M unit :=
  p ← pc; lo ← mem_getitem p;
  p ← pc; hi ← mem_getitem (p + 1);
  set_hl (Z.lor lo (Z.shiftl hi 8));;
  p ← pc; set_pc (p + 2).

(* 0x47 *)
Definition instr_LD_B_A : M unit :=
  x ← a; set_b x.

(* 0x76 *)
Definition instr_HALT : M unit :=
  modify (fun s => with_halted s true).

(* 0x78 *)
Definition instr_LD_A_B : M unit :=
  x ← b; set_a x.

(* 0x3E *)
Definition instr_LD_A_d8 : M unit :=
  p ← pc; x ← mem_getitem p; set_a x;;
  p ← pc; set_pc (p + 1).

(* 0xC3 *)
Definition instr_JP_d16 : M unit :=
  p ← pc; lo ← mem_getitem p;
  p ← pc; hi ← mem_getitem (p + 1);
  let value := Z.lor lo (Z.shiftl hi 8) in
  set_pc value.

(** *** The dispatch table *)

(** The class [Instruction], without its [description] text, which no
    code reads. *)
Record Instruction : Type := mkInstruction {
  name : string;
  opcode : Z;
  length : Z;
  cycles : Z;
  handler : M unit
}.

(** The dict literal of [build_instruction_table], key by key. *)
Definition build_instruction_table : list (Z * Instruction) := [
  (0x00, mkInstruction "NOP" 0x00 1 1 instr_NOP);
  (0x01, mkInstruction "LD BC, d16" 0x01 3 3 instr_LD_BC_d16);
  (0x02, mkInstruction "LD (BC), A" 0x02 1 2 instr_LD_BC_A);
  (0x03, mkInstruction "INC BC" 0x03 1 2 instr_INC_BC);
  (0x04, mkInstruction "INC B" 0x04 1 1 instr_INC_B);
  (0x05, mkInstruction "DEC B" 0x05 1 1 instr_DEC_B);
  (0x06, mkInstruction "LD B, d8" 0x06 2 2 instr_LD_B_d8);
  (0x07, mkInstruction "RLCA" 0x07 1 1 instr_RLCA);
  (0x08, mkInstruction "LD (a16), SP" 0x08 3 5 instr_LD_a16_SP);
  (0x09, mkInstruction "ADD HL, BC" 0x09 1 2 instr_ADD_HL_BC);
  (0x0A, mkInstruction "LD A, (BC)" 0x0A 1 2 instr_LD_A_BC);
  (0x0B, mkInstruction "DEC BC" 0x0B 1 2 instr_DEC_BC);
  (0x0C, mkInstruction "INC C" 0x0C 1 1 instr_INC_C);
  (0x0D, mkInstruction "DEC C" 0x0D 1 1 instr_DEC_C);
  (0x0E, mkInstruction "LD C, d8" 0x0E 2 2 instr_LD_C_d8);
  (0x0F, mkInstruction "RRCA" 0x0F 1 1 instr_RRCA);
  (0x10, mkInstruction "STOP" 0x10 2 1 instr_STOP);
  (0x11, mkInstruction "LD DE, d16" 0x11 3 3 instr_LD_DE_d16);
  (0x12, mkInstruction "LD (DE), A" 0x12 1 2 instr_LD_DE_A);
  (0x13, mkInstruction "INC DE" 0x13 1 2 instr_INC_DE);
  (0x14, mkInstruction "INC D" 0x14 1 1 instr_INC_D);
  (0x15, mkInstruction "DEC D" 0x15 1 1 instr_DEC_D);
  (0x16, mkInstruction "LD D, d8" 0x16 2 2 instr_LD_D_d8);
  (0x17, mkInstruction "RLA" 0x17 1 1 instr_RLA);
  (0x18, mkInstruction "JR s8" 0x18 2 3 instr_JR_s8);
  (0x19, mkInstruction "ADD HL, DE" 0x19 1 2 instr_ADD_HL_DE);
  (0x1A, mkInstruction "LD A, (DE)" 0x1A 1 2 instr_LD_A_DE);
  (0x1B, mkInstruction "DEC DE" 0x1B 1 2 instr_DEC_DE);
  (0x1C, mkInstruction "INC E" 0x1C 1 1 instr_INC_E);
  (0x1D, mkInstruction "DEC E" 0x1D 1 1 instr_DEC_E);
  (0x1E, mkInstruction "LD E, d8" 0x01E 2 2 instr_LD_E_d8);
  (0x21, mkInstruction "LD HL, d16" 0x21 3 3 instr_LD_HL_d16);
  (0x3E, mkInstruction "LD A, d8" 0x3E 2 2 instr_LD_A_d8);
  (0x47, mkInstruction "LD B, A" 0x47 1 1 instr_LD_B_A);
  (0x76, mkInstruction "HALT" 0x76 1 1 instr_HALT);
  (0x78, mkInstruction "LD A, B" 0x78 1 1 instr_LD_A_B);
  (0xC3, mkInstruction "JP d16" 0xC3 3 4 instr_JP_d16)
].

(** [self.instructions]: the dict built from the literal above. *)
Definition instructions : gmap Z Instruction :=
  list_to_map build_instruction_table.

(** [CPU.__init__]. *)
Definition init (memory : Memory.t) : t :=
  {| memory := memory;
     _pc := 0x0100;
     _sp := 0xFFFE;
     _a := 0x01;
     _f := 0x00;
     _b := 0x00; _c := 0x00; _d := 0x00; _e := 0x00; _h := 0x00; _l := 0x00;
     halted := false |}.

(** [CPU.step]. *)
Definition step : M Z :=
  stopped ← gets halted;
  if (stopped : bool) then mret 0
  else
    p ← pc; opcode ← mem_getitem p;
    p ← pc; set_pc (p + 1);;
    p ← pc; set_pc (Z.land p 0xFFFF);;
    let instruction :=
      default (mkInstruction "not implemented" 0 0 0 instr_unimplemented)
              (instructions !! opcode) in
    let cycles := cycles instruction in
    handler instruction;;
    mret cycles.

End CPU.

(** ** Test fixtures of test.py *)

(** [bytearray(0x7FFF)] with the program copied in at [start_addr], as
    [setup_cpu_with_instructions] builds it. *)
Definition rom_with (instructions : list Z) (start_addr : Z) : list Z :=
  replicate (Z.to_nat start_addr) 0 ++ instructions
  ++ replicate (Z.to_nat (0x7FFF - start_addr - Z.of_nat (length instructions))) 0.

(** [Memory(rom)] for such a cartridge: byte 0x0147 is 0, so the mapper
    is [NoMBC]. *)
Definition memory_with (instructions : list Z) (start_addr : Z) : Memory.t :=
  Memory.fresh (MBC.NoMBC (rom_with instructions start_addr)).

(** [setup_cpu_with_instructions]. *)
Definition setup_cpu_with_instructions (instructions : list Z) (start_addr : Z) : CPU.t :=
  CPU.init (memory_with instructions start_addr).

(** ** Notions used in the statements *)

(** The bank an MBC1 mapper has selected. *)
Definition rom_bank_of (m : MBC.t) : option Z :=
  match m with MBC.NoMBC _ => None | MBC.MBC1 _ bank => Some bank end.

(** A sequence of [write(address, value)] calls on a mapper. *)
Definition mbc_writes (m : MBC.t) (ws : list (Z * Z)) : MBC.t :=
  foldl (fun m w => MBC.write m w.1 w.2) m ws.

(** A CPU whose program counter has been set to [p], on a cartridge with
    the byte 0xFF (no table entry) at [p]. *)
Definition cpu_at_unimplemented (p : Z) : CPU.t :=
  CPU.final (CPU.set_pc p (setup_cpu_with_instructions [0xFF] p)).

(** The driver loop: [n] calls of [step], the object being kept between
    the calls. *)
Definition run_steps (n : nat) (s : CPU.t) : CPU.t :=
  Nat.iter n (fun s => CPU.final (CPU.step s)) s.

(** The stored F is a value masked with 0xF0. *)
Definition F_masked (s : CPU.t) : Prop := Z.land (CPU._f s) 0xF0 = CPU._f s.

(** A method that keeps F masked, whatever it returns or raises. *)
Definition keeps_F_masked {A : Type} (m : CPU.M A) : Prop :=
  forall s, F_masked s -> F_masked (CPU.final (m s)).

(** What is asked of an 8-bit INC ([dec = false]) or DEC
    ([dec = true]) on the register [reg], going from [s] to [s'], with the
    N bit left open as [n_after]. *)
Definition inc_dec_flags (dec : bool) (reg : CPU.t -> Z) (s s' : CPU.t)
    (n_after : bool) : Prop :=
  reg s' = Z.land (if dec then reg s - 1 else reg s + 1) 0xFF
  /\ Z.testbit (CPU._f s') 4 = Z.testbit (CPU._f s) 4
  /\ Z.testbit (CPU._f s') 7 = bool_decide (reg s' = 0)
  /\ Z.testbit (CPU._f s') 5
     = (if dec then CPU._check_half_carry_sub (reg s) 1
        else CPU._check_half_carry_add (reg s) 1)
  /\ Z.testbit (CPU._f s') 6 = n_after.

(** ** Well-formed buses *)

(** A value of a [bytes] or [bytearray] object. *)
Definition is_byte (x : Z) : Prop := 0 <= x <= 255.

(** The ROM blob a mapper holds. *)
Definition rom_of (m : MBC.t) : list Z :=
  match m with MBC.NoMBC rom => rom | MBC.MBC1 rom _ => rom end.

(** The buffers have the sizes [Memory.__init__] gives them. *)
Record sized (m : Memory.t) : Prop := {
  sized_vram : Z.of_nat (length (Memory.vram m)) = 0x2000;
  sized_eram : Z.of_nat (length (Memory.eram m)) = 0x2000;
  sized_wram : Z.of_nat (length (Memory.wram m)) = 0x2000;
  sized_oam : Z.of_nat (length (Memory.oam m)) = 0xA0;
  sized_io : Z.of_nat (length (Memory.io m)) = 0x80;
  sized_hram : Z.of_nat (length (Memory.hram m)) = 0x7F
}.

(** Every cell of the bus holds a byte. *)
Record holds_bytes (m : Memory.t) : Prop := {
  bytes_rom : Forall is_byte (rom_of (Memory.mbc m));
  bytes_vram : Forall is_byte (Memory.vram m);
  bytes_eram : Forall is_byte (Memory.eram m);
  bytes_wram : Forall is_byte (Memory.wram m);
  bytes_oam : Forall is_byte (Memory.oam m);
  bytes_io : Forall is_byte (Memory.io m);
  bytes_hram : Forall is_byte (Memory.hram m);
  bytes_ie : is_byte (Memory.ie_register m)
}.

(** The addresses [Memory.write] accepts. *)
Definition writable (address : Z) : Prop :=
  0x0000 <= address <= 0xFE9F \/ 0xFF00 <= address <= 0xFFFE.

(** The RAM addresses among them: everything above the cartridge. *)
Definition ram_address (address : Z) : Prop :=
  0x8000 <= address <= 0xFE9F \/ 0xFF00 <= address <= 0xFFFE.

(** The cell an address names: an echo address names the work-RAM cell
    0x2000 below it. *)
Definition cell_of (address : Z) : Z :=
  if decide (0xE000 <= address <= 0xFDFF) then address - 0x2000 else address.

(** ** Invariants of the CPU *)

(** A method that keeps the property [P] of the CPU object, whatever it
    returns or raises. *)
Definition preserves {A : Type} (P : CPU.t -> Prop) (m : CPU.M A) : Prop :=
  forall s, P s -> P (CPU.final (m s)).

(** The registers hold values of their width: 8 bits for A, B, C, D, E, H
    and L, 16 bits for PC and SP. *)
Record regs_in_range (s : CPU.t) : Prop := {
  range_pc : 0 <= CPU._pc s <= 0xFFFF;
  range_sp : 0 <= CPU._sp s <= 0xFFFF;
  range_a : 0 <= CPU._a s <= 0xFF;
  range_b : 0 <= CPU._b s <= 0xFF;
  range_c : 0 <= CPU._c s <= 0xFF;
  range_d : 0 <= CPU._d s <= 0xFF;
  range_e : 0 <= CPU._e s <= 0xFF;
  range_h : 0 <= CPU._h s <= 0xFF;
  range_l : 0 <= CPU._l s <= 0xFF
}.

(** The bus of the CPU has its buffer sizes and holds bytes. *)
Definition bus_well_formed (s : CPU.t) : Prop :=
  sized (CPU.memory s) /\ holds_bytes (CPU.memory s).

(** The opcodes whose handlers store to the bus: LD (BC),A, LD (a16),SP
    and LD (DE),A. *)
Definition stores_to_bus (opcode : Z) : Prop :=
  opcode = 0x02 \/ opcode = 0x08 \/ opcode = 0x12.

(** The opcodes whose handlers call [_set_flags]: the 8-bit INC and DEC,
    the rotates of A and ADD HL,rr. *)
Definition sets_flags (opcode : Z) : Prop :=
  opcode = 0x04 \/ opcode = 0x05 \/ opcode = 0x07 \/ opcode = 0x09
  \/ opcode = 0x0C \/ opcode = 0x0D \/ opcode = 0x0F \/ opcode = 0x14
  \/ opcode = 0x15 \/ opcode = 0x17 \/ opcode = 0x19 \/ opcode = 0x1C
  \/ opcode = 0x1D.

(** [PC] of [s'] is [PC] of [s] moved by [k], modulo 2^16. *)
Definition pc_moved (k : Z) (s s' : CPU.t) : Prop :=
  CPU._pc s' mod 2 ^ 16 = (CPU._pc s + k) mod 2 ^ 16.

(** A method that, when it returns, has moved [PC] by [k]. *)
Definition moves_pc {A : Type} (k : Z) (m : CPU.M A) : Prop :=
  forall s, match CPU.outcome (m s) with
            | Ok _ => pc_moved k s (CPU.final (m s))
            | Raise _ => True
            end.

(** The opcodes whose handlers assign [PC] a target instead of stepping
    over their operands: JR s8 and JP d16. *)
Definition jumps (opcode : Z) : Prop := opcode = 0x18 \/ opcode = 0xC3.

(** ** Values of register pairs and bytes *)

(** The 16-bit value of a high and a low byte. *)
Definition pair_value (hi lo : Z) : Z := hi * 256 + lo.

(** The bytes 0..255, for properties checked byte by byte. *)
Definition all_bytes : list Z := Z.of_nat <$> seq 0 256.

(** A CPU with [a] in A and [f] in F, everything else zero, on a bus
    without buffers: the rotates of A read and write nothing else. *)
Definition probe (a f : Z) : CPU.t :=
  CPU.mk (Memory.mk (MBC.NoMBC []) [] [] [] [] [] [] 0) 0 0 a f 0 0 0 0 0 0 false.

(** What the three rotates do to A and F, as arithmetic on the byte [a]
    and the masked flags [f], and that RLCA and RRCA undo each other. *)
Definition rotate_check (a f : Z) : bool :=
  let rlca := CPU.final (CPU.instr_RLCA (probe a f)) in
  let rrca := CPU.final (CPU.instr_RRCA (probe a f)) in
  let rla := CPU.final (CPU.instr_RLA (probe a f)) in
  (CPU._a rlca =? (2 * a) mod 256 + a / 128) && (CPU._f rlca =? 16 * (a / 128))
  && (CPU._a rrca =? a / 2 + 128 * (a mod 2)) && (CPU._f rrca =? 16 * (a mod 2))
  && (CPU._a rla =? (2 * a) mod 256 + (f / 16) mod 2) && (CPU._f rla =? 16 * (a / 128))
  && (CPU._a (CPU.final (CPU.instr_RRCA rlca)) =? a)
  && (CPU._a (CPU.final (CPU.instr_RLCA rrca)) =? a).

(** ** run_rom.py: the driver loop *)

(** [while not cpu.halted: cpu.step()].  The loop may run forever, so it is
    given a number of iterations: [None] when they are used up with the
    CPU still running, the halted CPU when the loop ends, the exception
    when a [step] raises (nothing in [main] catches it). *)
Fixpoint main_loop (fuel : nat) (s : CPU.t) : option (result CPU.t) :=
  match fuel with
  | O => None
  | S fuel' =>
      if CPU.halted s then Some (Ok s)
      else match CPU.step s with
           | CPU.Run (Ok _) s' _ => main_loop fuel' s'
           | CPU.Run (Raise err) _ _ => Some (Raise err)
           end
  end.

(** * Properties *)

(** ** Byte buffers *)

Section Buffers.
Implicit Types (b : list Z) (i v : Z).

Lemma getitem_lookup b i x :
  0 <= i -> b !! Z.to_nat i = Some x -> Buf.getitem b i = Ok x.
Proof.
  intros Hi Hx. unfold Buf.getitem. cbv zeta.
  repeat case_decide; try lia. by rewrite Hx.
Qed.

Lemma setitem_in_range b i v :
  0 <= i < Z.of_nat (length b) -> 0 <= v < 256 ->
  Buf.setitem b i v = Ok (<[Z.to_nat i := v]> b).
Proof.
  intros Hi Hv. unfold Buf.setitem. cbv zeta.
  repeat case_decide; try lia. reflexivity.
Qed.

Lemma getitem_insert b i v :
  0 <= i < Z.of_nat (length b) ->
  Buf.getitem (<[Z.to_nat i := v]> b) i = Ok v.
Proof.
  intros Hi. apply getitem_lookup; [lia|].
  apply list_lookup_insert_eq. lia.
Qed.

Lemma land_255_byte v : 0 <= Z.land v 0xFF < 256.
Proof.
  change 0xFF with (Z.ones 8). rewrite Z.land_ones by lia.
  apply Z.mod_pos_bound. lia.
Qed.

Lemma land_255_id v : 0 <= v <= 255 -> Z.land v 0xFF = v.
Proof.
  intros Hv. change 0xFF with (Z.ones 8). rewrite Z.land_ones by lia.
  apply Z.mod_small. lia.
Qed.

End Buffers.

(** ** The test cartridge *)

Section Fixtures.
Implicit Types (instructions : list Z) (start_addr : Z).

(** Byte 0x0147 of the test cartridge is 0 as long as the program does
    not cover that address. *)
Lemma rom_with_mbc_type instructions start_addr :
  0 <= start_addr ->
  start_addr + Z.of_nat (length instructions) <= 0x0147 \/ 0x0147 < start_addr ->
  start_addr + Z.of_nat (length instructions) <= 0x7FFF - 1 ->
  Buf.getitem (rom_with instructions start_addr) 0x0147 = Ok 0.
Proof.
  intros Hstart Hcase Hfit. apply getitem_lookup; [lia|]. unfold rom_with.
  destruct Hcase as [Hbefore | Hafter].
  - rewrite lookup_app_r by (rewrite length_replicate; lia).
    rewrite lookup_app_r by (rewrite length_replicate; lia).
    apply lookup_replicate_2. rewrite length_replicate. lia.
  - rewrite lookup_app_l by (rewrite length_replicate; lia).
    apply lookup_replicate_2. lia.
Qed.

(** [Memory(rom)] on the test cartridge is the bus of [memory_with]. *)
Lemma memory_with_init instructions start_addr :
  0 <= start_addr ->
  start_addr + Z.of_nat (length instructions) <= 0x0147 \/ 0x0147 < start_addr ->
  start_addr + Z.of_nat (length instructions) <= 0x7FFF - 1 ->
  Memory.init (rom_with instructions start_addr)
  = Ok (memory_with instructions start_addr).
Proof.
  intros Hstart Hcase Hfit. unfold Memory.init, MBC.detect_mbc.
  rewrite rom_with_mbc_type by done.
  by rewrite decide_True.
Qed.

End Fixtures.

(** ** The address decoder *)

Section Decoder.
Implicit Types (m : Memory.t) (address value : Z).

Ltac decode := repeat (case_decide; try lia); try reflexivity.

Lemma read_wram m address :
  0xC000 <= address <= 0xDFFF ->
  Memory.read m address = Buf.getitem (Memory.wram m) (address - 0xC000).
Proof.
  intros H. rewrite Memory.read_equation_1. decode.
  f_equal. lia.
Qed.

Lemma read_echo m address :
  0xE000 <= address <= 0xFDFF ->
  Memory.read m address = Memory.read m (address - 0x2000).
Proof. intros H. rewrite Memory.read_equation_1 at 1. decode. Qed.

Lemma read_hram m address :
  0xFF80 <= address <= 0xFFFE ->
  Memory.read m address = Buf.getitem (Memory.hram m) (address - 0xFF80).
Proof. intros H. rewrite Memory.read_equation_1. decode. Qed.

Lemma read_ie m : Memory.read m 0xFFFF = Ok (Memory.ie_register m).
Proof. rewrite Memory.read_equation_1. decode. Qed.

Lemma write_wram m address value :
  0xC000 <= address <= 0xDFFF ->
  Memory.write m address value =
  Memory.store (Memory.set_wram m) (Memory.wram m) (address - 0xC000)
               (Z.land value 0xFF).
Proof.
  intros H. rewrite Memory.write_equation_1. cbv zeta. decode.
  f_equal. lia.
Qed.

Lemma write_echo m address value :
  0xE000 <= address <= 0xFDFF ->
  Memory.write m address value = Memory.write m (address - 0x2000) value.
Proof.
  intros H. rewrite Memory.write_equation_1 at 1. cbv zeta. decode.
  rewrite (Memory.write_equation_1 m _ (Z.land value 0xFF)).
  rewrite (Memory.write_equation_1 m _ value). cbv zeta.
  by rewrite <- Z.land_assoc.
Qed.

Lemma write_hram m address value :
  0xFF80 <= address <= 0xFFFE ->
  Memory.write m address value =
  Memory.store (Memory.set_hram m) (Memory.hram m) (address - 0xFF80)
               (Z.land value 0xFF).
Proof. intros H. rewrite Memory.write_equation_1. cbv zeta. decode. Qed.

Lemma write_ie m value :
  Memory.write m 0xFFFF value = Raise (InvalidAddress 0xFFFF).
Proof. rewrite Memory.write_equation_1. cbv zeta. decode. Qed.

(** A work-RAM write followed by a read of the same cell. *)
Lemma wram_write_read m address value :
  Z.of_nat (length (Memory.wram m)) = 0x2000 ->
  0xC000 <= address <= 0xDFFF ->
  exists m', Memory.write m address value = Ok m'
          /\ Memory.read m' address = Ok (Z.land value 0xFF).
Proof.
  intros Hlen H. rewrite write_wram by done. unfold Memory.store.
  rewrite setitem_in_range by (auto using land_255_byte; lia).
  eexists. split; [reflexivity|].
  rewrite read_wram by done. cbn. apply getitem_insert. lia.
Qed.

End Decoder.

(** C1.  [Memory.write(0xFFFF, v)] does not store [v]: for every bus and
    every value it raises the invalid-address [ValueError], the bus is as
    it was, and [Memory.read(0xFFFF)] still returns the old [ie_register].
    On a fresh bus the byte 0x1F is therefore not read back. *)
Theorem C1_write_ie_register_raises :
  (forall (m : Memory.t) (v : Z),
      Memory.write m 0xFFFF v = Raise (InvalidAddress 0xFFFF)
      /\ Memory.read m 0xFFFF = Ok (Memory.ie_register m))
  /\ Memory.write (memory_with [] 0x0100) 0xFFFF 0x1F = Raise (InvalidAddress 0xFFFF)
  /\ Memory.read (memory_with [] 0x0100) 0xFFFF = Ok 0x00.
Proof.
  split; [|split].
  - intros m v. split; [apply write_ie | apply read_ie].
  - apply write_ie.
  - apply read_ie.
Qed.

(** C5.  Echo RAM round trip.  On a bus whose work RAM has the size the
    constructor gives it, for every [addr] in 0xE000..0xFDFF and every
    byte [v]: a write at [addr] succeeds and a read at [addr - 0x2000]
    then returns [v]; and a write at [addr - 0x2000] succeeds and a read
    at [addr] then returns [v]. *)
Theorem C5_echo_ram_round_trip (m : Memory.t) (addr v : Z) :
  Z.of_nat (length (Memory.wram m)) = 0x2000 ->
  0xE000 <= addr <= 0xFDFF ->
  0 <= v <= 255 ->
  (exists m', Memory.write m addr v = Ok m'
           /\ Memory.read m' (addr - 0x2000) = Ok v)
  /\ (exists m', Memory.write m (addr - 0x2000) v = Ok m'
              /\ Memory.read m' addr = Ok v).
Proof.
  intros Hlen Haddr Hv.
  destruct (wram_write_read m (addr - 0x2000) v Hlen) as (m' & Hw & Hr); [lia|].
  rewrite land_255_id in Hr by done.
  split; exists m'.
  - by rewrite write_echo.
  - by rewrite read_echo.
Qed.

Lemma C5_echo_ram_round_trip_witness :
  (exists m', Memory.write (memory_with [] 0x0100) 0xE000 0x84 = Ok m'
           /\ Memory.read m' 0xC000 = Ok 0x84)
  /\ (exists m', Memory.write (memory_with [] 0x0100) 0xC000 0x84 = Ok m'
              /\ Memory.read m' 0xE000 = Ok 0x84).
Proof.
  apply (C5_echo_ram_round_trip (memory_with [] 0x0100) 0xE000 0x84).
  - vm_compute. reflexivity.
  - lia.
  - lia.
Defined.

(** ** The mapper *)

Section Mapper.
Implicit Types (rom : list Z) (bank address value : Z).

Lemma land_31_range value : 0 <= Z.land value 31 <= 31.
Proof.
  change 31 with (Z.ones 5) at 1 2. rewrite Z.land_ones by lia.
  pose proof (Z.mod_pos_bound value (2 ^ 5)). lia.
Qed.

Lemma py_or_bank_range value : 1 <= MBC.py_or (Z.land value 31) 0x01 <= 31.
Proof.
  pose proof (land_31_range value). unfold MBC.py_or.
  case_decide; lia.
Qed.

Lemma mbc1_write_bank_range rom bank address value :
  1 <= bank <= 31 ->
  exists bank', MBC.write (MBC.MBC1 rom bank) address value = MBC.MBC1 rom bank'
             /\ 1 <= bank' <= 31.
Proof.
  intros Hb. cbn. case_decide.
  - eexists. split; [reflexivity|]. apply py_or_bank_range.
  - by exists bank.
Qed.

Lemma mbc1_writes_bank_range rom ws : forall bank,
  1 <= bank <= 31 ->
  exists bank', mbc_writes (MBC.MBC1 rom bank) ws = MBC.MBC1 rom bank'
             /\ 1 <= bank' <= 31.
Proof.
  induction ws as [|[address value] ws IH]; intros bank Hb.
  - by exists bank.
  - destruct (mbc1_write_bank_range rom bank address value Hb) as (b1 & Hw & Hb1).
    unfold mbc_writes in *. cbn [foldl fst snd]. rewrite Hw. by apply IH.
Qed.

End Mapper.

(** C6.  The MBC1 mapper.  A write at an address in 0x2000..0x3FFF selects
    bank [value & 0x1F], or bank 1 when that is 0; a write at any other
    address leaves the mapper as it is; a read below 0x4000 is [ROM[addr]]
    and a read from 0x4000 on is [ROM[(addr - 0x4000) + bank * 0x4000]]
    (raising what the subscript raises); and starting from a new MBC1,
    whatever the sequence of writes, the selected bank is in 1..31. *)
Theorem C6_mbc1_bank_switching (rom : list Z) (bank addr value : Z) :
  (0x2000 <= addr <= 0x3FFF ->
   MBC.write (MBC.MBC1 rom bank) addr value =
   MBC.MBC1 rom (if decide (Z.land value 0x1F = 0) then 1 else Z.land value 0x1F))
  /\ (~ 0x2000 <= addr <= 0x3FFF ->
      MBC.write (MBC.MBC1 rom bank) addr value = MBC.MBC1 rom bank)
  /\ (addr < 0x4000 ->
      MBC.read (MBC.MBC1 rom bank) addr = Buf.getitem rom addr)
  /\ (addr >= 0x4000 ->
      MBC.read (MBC.MBC1 rom bank) addr =
      Buf.getitem rom ((addr - 0x4000) + bank * 0x4000))
  /\ (forall ws : list (Z * Z),
      exists bank', mbc_writes (MBC.MBC1_init rom) ws = MBC.MBC1 rom bank'
                 /\ 1 <= bank' <= 31).
Proof.
  repeat split.
  - intros H. cbn. rewrite decide_True by done. reflexivity.
  - intros H. cbn. by rewrite decide_False.
  - intros H. cbn. by rewrite decide_True.
  - intros H. cbn. rewrite decide_False by lia. reflexivity.
  - intros ws. apply mbc1_writes_bank_range. lia.
Qed.

Lemma C6_mbc1_bank_switching_witness :
  MBC.write (MBC.MBC1 [0x11; 0x22] 7) 0x2000 0xE0 = MBC.MBC1 [0x11; 0x22] 1
  /\ MBC.write (MBC.MBC1 [0x11; 0x22] 7) 0x4000 0xE3 = MBC.MBC1 [0x11; 0x22] 7
  /\ MBC.read (MBC.MBC1 [0x11; 0x22] 7) 0x0001 = Ok 0x22
  /\ MBC.read (MBC.MBC1 [0x11; 0x22] 0) 0x4001 = Ok 0x22
  /\ rom_bank_of (mbc_writes (MBC.MBC1_init [0x11; 0x22])
                             [(0x2000, 0x00); (0x3FFF, 0xFF); (0x0000, 0x05)])
     = Some 31.
Proof.
  pose proof (C6_mbc1_bank_switching [0x11; 0x22] 7 0x2000 0xE0) as (H1 & _).
  pose proof (C6_mbc1_bank_switching [0x11; 0x22] 7 0x4000 0xE3) as (_ & H2 & _).
  pose proof (C6_mbc1_bank_switching [0x11; 0x22] 7 0x0001 0) as (_ & _ & H3 & _).
  pose proof (C6_mbc1_bank_switching [0x11; 0x22] 0 0x4001 0) as (_ & _ & _ & H4 & _).
  split; [apply H1; lia|].
  split; [apply H2; lia|].
  split; [rewrite H3 by lia; reflexivity|].
  split; [rewrite H4 by lia; reflexivity|].
  reflexivity.
Defined.

(** ** Running one step *)

(** Unfolds the monad and the properties in the goal, down to the bus calls
    and the arithmetic on the registers. *)
Ltac run_cpu :=
  cbv beta iota zeta delta
    [mbind mret CPU.M_bind CPU.M_ret CPU.raise CPU.gets CPU.modify
     CPU.mem_getitem CPU.mem_setitem
     CPU.pc CPU.set_pc CPU.sp CPU.set_sp CPU.a CPU.set_a CPU.f CPU.set_f
     CPU.b CPU.set_b CPU.c CPU.set_c CPU.d CPU.set_d CPU.e CPU.set_e
     CPU.h CPU.set_h CPU.l CPU.set_l
     CPU.af CPU.set_af CPU.bc CPU.set_bc CPU.de CPU.set_de CPU.hl CPU.set_hl
     CPU._set_flags
     CPU.with_memory CPU.with_pc CPU.with_sp CPU.with_a CPU.with_f CPU.with_b
     CPU.with_c CPU.with_d CPU.with_e CPU.with_h CPU.with_l CPU.with_halted];
  cbn [CPU.outcome CPU.final CPU.accesses
       CPU.memory CPU._pc CPU._sp CPU._a CPU._f CPU._b CPU._c CPU._d CPU._e
       CPU._h CPU._l CPU.halted
       CPU.name CPU.opcode CPU.length CPU.cycles CPU.handler
       default from_option id app].

Section Step.
Import CPU.
Implicit Types (s : CPU.t).

(** A halted CPU does nothing at all. *)
Lemma step_halted s : halted s = true -> step s = Run (Ok 0) s [].
Proof.
  intros H. unfold step. run_cpu. rewrite H. run_cpu. by destruct s.
Qed.

Lemma land_mask_idem x m : Z.land (Z.land x m) m = Z.land x m.
Proof. by rewrite <- Z.land_assoc, Z.land_diag. Qed.

Lemma land_16_mod x : Z.land x 0xFFFF = x mod 2 ^ 16.
Proof. change 0xFFFF with (Z.ones 16). by rewrite Z.land_ones by lia. Qed.

(** The signed reading of an immediate byte undoes two's complement. *)
Lemma signed_of_byte disp :
  -128 <= disp <= 127 ->
  (if decide (disp mod 256 >= 0x80) then disp mod 256 - 0x100 else disp mod 256)
  = disp.
Proof. intros H. case_decide; Z.div_mod_to_equations; lia. Qed.

Lemma lookup_JR_s8 :
  instructions !! 0x18 = Some (mkInstruction "JR s8" 0x18 2 3 instr_JR_s8).
Proof. reflexivity. Qed.

End Step.

(** C7.  JR round trip.  Let the CPU run with opcode 0x18 at [PC] and, at
    the next address, the byte that encodes the signed displacement
    [disp] of -128..127 in two's complement.  Then [step] returns the 3
    cycles of JR and leaves [PC = (PC_before + 2 + disp) mod 2^16]. *)
Theorem C7_jr_round_trip (s : CPU.t) (disp : Z) :
  CPU.halted s = false ->
  -128 <= disp <= 127 ->
  Memory.read (CPU.memory s) (CPU._pc s) = Ok 0x18 ->
  Memory.read (CPU.memory s) (Z.land (CPU._pc s + 1) 0xFFFF) = Ok (disp mod 256) ->
  CPU.outcome (CPU.step s) = Ok 3
  /\ CPU._pc (CPU.final (CPU.step s)) = (CPU._pc s + 2 + disp) mod 2 ^ 16.
Proof.
  intros Hrun Hdisp Hop Himm.
  unfold CPU.step. run_cpu. rewrite Hrun. run_cpu. rewrite Hop. run_cpu.
  rewrite lookup_JR_s8. run_cpu.
  unfold CPU.instr_JR_s8. run_cpu.
  rewrite !land_mask_idem, Himm. run_cpu.
  split; [reflexivity|].
  rewrite signed_of_byte by done.
  rewrite !land_16_mod.
  change (2 ^ 16) with 65536. Z.div_mod_to_equations. lia.
Qed.

(** The self-loop [18 FE] at 0x0100, which is JR -2. *)
Lemma C7_jr_round_trip_witness :
  CPU.outcome (CPU.step (setup_cpu_with_instructions [0x18; 0xFE] 0x0100)) = Ok 3
  /\ CPU._pc (CPU.final (CPU.step (setup_cpu_with_instructions [0x18; 0xFE] 0x0100)))
     = 0x0100.
Proof.
  apply (C7_jr_round_trip (setup_cpu_with_instructions [0x18; 0xFE] 0x0100) (-2)).
  - reflexivity.
  - lia.
  - vm_compute. reflexivity.
  - vm_compute. reflexivity.
Defined.

(** C8.  With the HALT flag set, [step] returns 0, makes no bus access (the
    log of accesses is empty, so there is no opcode fetch), and the CPU
    object it leaves, bus included, is the one it was given. *)
Theorem C8_halted_step_is_noop (s : CPU.t) :
  CPU.halted s = true ->
  CPU.outcome (CPU.step s) = Ok 0
  /\ CPU.accesses (CPU.step s) = []
  /\ CPU.final (CPU.step s) = s.
Proof. intros H. by rewrite step_halted. Qed.

(** After the HALT opcode has run, the next [step] is such a no-op. *)
Lemma C8_halted_step_is_noop_witness :
  let s := CPU.final (CPU.step (setup_cpu_with_instructions [0x76] 0x0100)) in
  CPU.halted s = true
  /\ CPU.outcome (CPU.step s) = Ok 0
  /\ CPU.accesses (CPU.step s) = []
  /\ CPU.final (CPU.step s) = s.
Proof.
  intros s.
  assert (Hs : CPU.halted s = true) by (vm_compute; reflexivity).
  split; [exact Hs|].
  exact (C8_halted_step_is_noop s Hs).
Defined.

(** ** Unimplemented opcodes *)

Section Unimplemented.
Import CPU.
Implicit Types (s : CPU.t).

(** Only addresses of the 16-bit space can be read. *)
Lemma read_ok_range (m : Memory.t) address x :
  Memory.read m address = Ok x -> 0 <= address <= 0xFFFF.
Proof.
  rewrite Memory.read_equation_1.
  repeat (case_decide; try lia). discriminate.
Qed.

Lemma land_16_small x : 0 <= x <= 0xFFFF -> Z.land x 0xFFFF = x.
Proof. intros H. rewrite land_16_mod. apply Z.mod_small. lia. Qed.

(** What [step] does on an opcode without a table entry that is fetched
    below the last address. *)
Lemma step_unimplemented s op :
  halted s = false ->
  _pc s <> 0xFFFF ->
  Memory.read (memory s) (_pc s) = Ok op ->
  instructions !! op = None ->
  step s = Run (Raise (UnimplementedOpcode op)) (with_pc s (_pc s + 1))
               [BusRead (_pc s); BusRead (_pc s)].
Proof.
  intros Hrun Hpc Hop Hnone.
  pose proof (read_ok_range _ _ _ Hop) as Hrange.
  unfold step. run_cpu. rewrite Hrun. run_cpu. rewrite Hop. run_cpu.
  rewrite Hnone. run_cpu. unfold instr_unimplemented. run_cpu.
  rewrite !land_mask_idem, land_16_small by lia.
  replace (_pc s + 1 - 1) with (_pc s) by lia.
  rewrite Hop. run_cpu. by rewrite Hrun.
Qed.

(** At the last address the re-read of the opcode goes to address -1. *)
Lemma step_unimplemented_last s op :
  halted s = false ->
  _pc s = 0xFFFF ->
  Memory.read (memory s) (_pc s) = Ok op ->
  instructions !! op = None ->
  outcome (step s) = Raise (InvalidAddress (-1)).
Proof.
  intros Hrun Hpc Hop Hnone.
  unfold step. run_cpu. rewrite Hrun. run_cpu. rewrite Hop. run_cpu.
  rewrite Hnone. run_cpu. unfold instr_unimplemented. run_cpu.
  rewrite Hpc. change (Z.land (Z.land (Z.land (0xFFFF + 1) 0xFFFF) 0xFFFF) 0xFFFF - 1) with (-1).
  rewrite Memory.read_equation_1.
  repeat (case_decide; try lia). reflexivity.
Qed.

End Unimplemented.

(** C4, as stated: the exception of an unimplemented opcode would let one
    recover the fetch address.  It does not: fetched at 0x0100 and at
    0x0200, the opcode 0xFF raises one and the same exception, whose message
    names the opcode only. *)
Lemma C4_error_does_not_carry_pc :
  let s1 := cpu_at_unimplemented 0x0100 in
  let s2 := cpu_at_unimplemented 0x0200 in
  CPU._pc s1 = 0x0100 /\ CPU._pc s2 = 0x0200
  /\ CPU.instructions !! 0xFF = None
  /\ CPU.outcome (CPU.step s1) = Raise (UnimplementedOpcode 0xFF)
  /\ CPU.outcome (CPU.step s2) = Raise (UnimplementedOpcode 0xFF)
  /\ ~ (exists pc_of : exn -> Z,
          forall s e, s = s1 \/ s = s2 ->
                      CPU.outcome (CPU.step s) = Raise e -> pc_of e = CPU._pc s).
Proof.
  intros s1 s2.
  assert (H1 : CPU.outcome (CPU.step s1) = Raise (UnimplementedOpcode 0xFF))
    by (vm_compute; reflexivity).
  assert (H2 : CPU.outcome (CPU.step s2) = Raise (UnimplementedOpcode 0xFF))
    by (vm_compute; reflexivity).
  repeat split; try done.
  intros [pc_of Hpc].
  pose proof (Hpc s1 _ (or_introl eq_refl) H1) as E1.
  pose proof (Hpc s2 _ (or_intror eq_refl) H2) as E2.
  rewrite E1 in E2. vm_compute in E2. discriminate.
Qed.

(** C4, amended.  When the CPU runs and fetches, at a [PC] other than
    0xFFFF, an opcode byte without an entry in the dispatch table, [step]
    raises the unimplemented-opcode exception carrying that opcode byte and
    nothing else; the CPU is left with [PC] one past the fetch address and
    is otherwise unchanged, after two reads of the fetch address. *)
Theorem C4_unimplemented_opcode (s : CPU.t) (op : Z) :
  CPU.halted s = false ->
  CPU._pc s <> 0xFFFF ->
  Memory.read (CPU.memory s) (CPU._pc s) = Ok op ->
  CPU.instructions !! op = None ->
  CPU.outcome (CPU.step s) = Raise (UnimplementedOpcode op)
  /\ CPU.final (CPU.step s) = CPU.with_pc s (CPU._pc s + 1)
  /\ CPU.accesses (CPU.step s) = [CPU.BusRead (CPU._pc s); CPU.BusRead (CPU._pc s)].
Proof.
  intros Hrun Hpc Hop Hnone.
  by rewrite (step_unimplemented s op Hrun Hpc Hop Hnone).
Qed.

Lemma C4_unimplemented_opcode_witness :
  let s := cpu_at_unimplemented 0x0100 in
  CPU.outcome (CPU.step s) = Raise (UnimplementedOpcode 0xFF)
  /\ CPU.final (CPU.step s) = CPU.with_pc s (CPU._pc s + 1)
  /\ CPU.accesses (CPU.step s) = [CPU.BusRead (CPU._pc s); CPU.BusRead (CPU._pc s)].
Proof.
  intros s. apply (C4_unimplemented_opcode s 0xFF).
  - reflexivity.
  - vm_compute. discriminate.
  - vm_compute. reflexivity.
  - reflexivity.
Defined.

(** ** LD (a16),SP at the top of the address space *)

Section StoreSP.
Import CPU.
Implicit Types (s : CPU.t).

Lemma lookup_LD_a16_SP :
  instructions !! 0x08
  = Some (mkInstruction "LD (a16), SP" 0x08 3 5 instr_LD_a16_SP).
Proof. reflexivity. Qed.

(** [step] up to the two operand reads of LD (a16),SP. *)
Lemma step_LD_a16_SP s lo hi :
  halted s = false ->
  Memory.read (memory s) (_pc s) = Ok 0x08 ->
  Memory.read (memory s) (Z.land (_pc s + 1) 0xFFFF) = Ok lo ->
  Memory.read (memory s) (Z.land (_pc s + 1) 0xFFFF + 1) = Ok hi ->
  step s =
  match
    (let pointer := Z.lor lo (Z.shiftl hi 8) in
     x ← sp; mem_setitem pointer (Z.land x 0x00FF);;
     x ← sp; mem_setitem (pointer + 1) (Z.land (Z.shiftr x 8) 0x00FF);;
     p ← pc; set_pc (p + 2);; mret 5)
      (with_pc s (Z.land (_pc s + 1) 0xFFFF))
  with
  | Run o s' t =>
      Run o s' ([BusRead (_pc s); BusRead (Z.land (_pc s + 1) 0xFFFF);
                 BusRead (Z.land (_pc s + 1) 0xFFFF + 1)] ++ t)
  end.
Proof.
  intros Hrun Hop Hlo Hhi.
  unfold step. run_cpu. rewrite Hrun. run_cpu. rewrite Hop. run_cpu.
  rewrite lookup_LD_a16_SP. run_cpu. unfold instr_LD_a16_SP. run_cpu.
  rewrite !land_mask_idem, Hlo. run_cpu. rewrite Hhi. run_cpu.
  repeat match goal with
         | |- context [match Memory.write ?m ?p ?v with _ => _ end] =>
             destruct (Memory.write m p v); run_cpu
         end; by rewrite ?Hrun.
Qed.

End StoreSP.

(** C10.  Let the CPU run with opcode 0x08 at [PC] followed by the
    little-endian operand 0xFFFE or 0xFFFF, on a bus whose high RAM has the
    size the constructor gives it.  Then [step] raises the invalid-address
    [ValueError] for address 0xFFFF.  For 0xFFFF the bus is unchanged: the
    store of the low byte of SP is the one rejected.  For 0xFFFE the low
    byte of SP has been stored in the last cell of high RAM (and is read
    back at 0xFFFE) when the store of the high byte is rejected.  In both
    cases PC is left just behind the opcode. *)
Theorem C10_ld_a16_sp_top_of_memory (s : CPU.t) (lo : Z) :
  CPU.halted s = false ->
  Z.of_nat (length (Memory.hram (CPU.memory s))) = 0x7F ->
  Memory.read (CPU.memory s) (CPU._pc s) = Ok 0x08 ->
  Memory.read (CPU.memory s) (Z.land (CPU._pc s + 1) 0xFFFF) = Ok lo ->
  Memory.read (CPU.memory s) (Z.land (CPU._pc s + 1) 0xFFFF + 1) = Ok 0xFF ->
  lo = 0xFE \/ lo = 0xFF ->
  CPU.outcome (CPU.step s) = Raise (InvalidAddress 0xFFFF)
  /\ CPU._pc (CPU.final (CPU.step s)) = Z.land (CPU._pc s + 1) 0xFFFF
  /\ (lo = 0xFF ->
      CPU.memory (CPU.final (CPU.step s)) = CPU.memory s
      /\ last (CPU.accesses (CPU.step s))
         = Some (CPU.BusWrite 0xFFFF (Z.land (CPU._sp s) 0xFF)))
  /\ (lo = 0xFE ->
      CPU.memory (CPU.final (CPU.step s))
      = Memory.set_hram (CPU.memory s)
          (<[Z.to_nat 0x7E := Z.land (CPU._sp s) 0xFF]> (Memory.hram (CPU.memory s)))
      /\ Memory.read (CPU.memory (CPU.final (CPU.step s))) 0xFFFE
         = Ok (Z.land (CPU._sp s) 0xFF)
      /\ last (CPU.accesses (CPU.step s))
         = Some (CPU.BusWrite 0xFFFF (Z.land (Z.shiftr (CPU._sp s) 8) 0xFF))).
Proof.
  intros Hrun Hlen Hop Hlo Hhi Hcase.
  rewrite (step_LD_a16_SP s lo 0xFF Hrun Hop Hlo Hhi). cbv zeta.
  destruct Hcase as [-> | ->].
  - change (Z.lor 0xFE (Z.shiftl 0xFF 8)) with 0xFFFE.
    change (0xFFFE + 1) with 0xFFFF.
    run_cpu. rewrite write_hram by lia. unfold Memory.store.
    rewrite land_mask_idem.
    rewrite setitem_in_range by (auto using land_255_byte; lia).
    run_cpu. rewrite write_ie. run_cpu.
    repeat split; try reflexivity; try discriminate.
    rewrite read_hram by lia. cbn [Memory.hram Memory.set_hram].
    change (0xFFFE - 0xFF80) with 0x7E.
    apply getitem_insert. lia.
  - change (Z.lor 0xFF (Z.shiftl 0xFF 8)) with 0xFFFF.
    run_cpu. rewrite write_ie. run_cpu.
    repeat split; try reflexivity; discriminate.
Qed.

Lemma C10_ld_a16_sp_top_of_memory_witness :
  let s := setup_cpu_with_instructions [0x08; 0xFE; 0xFF] 0x0100 in
  CPU.outcome (CPU.step s) = Raise (InvalidAddress 0xFFFF)
  /\ Memory.read (CPU.memory (CPU.final (CPU.step s))) 0xFFFE = Ok 0xFE
  /\ Memory.read (CPU.memory s) 0xFFFE = Ok 0x00.
Proof.
  intros s.
  destruct (C10_ld_a16_sp_top_of_memory s 0xFE) as (Hraise & _ & _ & Hfe).
  - reflexivity.
  - vm_compute. reflexivity.
  - vm_compute. reflexivity.
  - vm_compute. reflexivity.
  - vm_compute. reflexivity.
  - left. reflexivity.
  - destruct (Hfe eq_refl) as (_ & Hread & _).
    split; [exact Hraise|]. split; [exact Hread|].
    vm_compute. reflexivity.
Defined.

(** ** LD r,d8 *)

Section LoadImmediate.
Import CPU.
Implicit Types (s : CPU.t).

Lemma lookup_LD_D_d8 :
  instructions !! 0x16 = Some (mkInstruction "LD D, d8" 0x16 2 2 instr_LD_D_d8).
Proof. reflexivity. Qed.

Lemma lookup_LD_B_d8 :
  instructions !! 0x06 = Some (mkInstruction "LD B, d8" 0x06 2 2 instr_LD_B_d8).
Proof. reflexivity. Qed.

(** LD D,d8 at any address: D is loaded, PC stays on the operand. *)
Lemma step_LD_D_d8 s x :
  halted s = false ->
  Memory.read (memory s) (_pc s) = Ok 0x16 ->
  Memory.read (memory s) (Z.land (_pc s + 1) 0xFFFF) = Ok x ->
  outcome (step s) = Ok 2
  /\ _d (final (step s)) = Z.land x 0xFF
  /\ _pc (final (step s)) = Z.land (_pc s + 1) 0xFFFF.
Proof.
  intros Hrun Hop Himm.
  unfold step. run_cpu. rewrite Hrun. run_cpu. rewrite Hop. run_cpu.
  rewrite lookup_LD_D_d8. run_cpu. unfold instr_LD_D_d8. run_cpu.
  rewrite !land_mask_idem, Himm. run_cpu. done.
Qed.

(** LD B,d8, the sibling: B is loaded and PC moves past the operand. *)
Lemma step_LD_B_d8 s x :
  halted s = false ->
  Memory.read (memory s) (_pc s) = Ok 0x06 ->
  Memory.read (memory s) (Z.land (_pc s + 1) 0xFFFF) = Ok x ->
  outcome (step s) = Ok 2
  /\ _b (final (step s)) = Z.land x 0xFF
  /\ _pc (final (step s)) = Z.land (Z.land (_pc s + 1) 0xFFFF + 1) 0xFFFF.
Proof.
  intros Hrun Hop Himm.
  unfold step. run_cpu. rewrite Hrun. run_cpu. rewrite Hop. run_cpu.
  rewrite lookup_LD_B_d8. run_cpu. unfold instr_LD_B_d8. run_cpu.
  rewrite !land_mask_idem, Himm. run_cpu. done.
Qed.

End LoadImmediate.

(** C2.  Opcode 0x16 does not advance PC past its operand.  With the
    program [16 42] at 0x0100, one [step] loads D with 0x42 and returns the
    2 cycles of the table, but leaves PC at 0x0101 where LD D,d8 should give
    0x0102; the same program with opcode 0x06 (LD B,d8) ends at 0x0102. *)
Theorem C2_ld_d_d8_leaves_pc_on_operand :
  let r := CPU.step (setup_cpu_with_instructions [0x16; 0x42] 0x0100) in
  let r' := CPU.step (setup_cpu_with_instructions [0x06; 0x42] 0x0100) in
  CPU.outcome r = Ok 2
  /\ CPU._d (CPU.final r) = 0x42
  /\ CPU._pc (CPU.final r) = 0x0101
  /\ CPU._pc (CPU.final r) <> (0x0100 + 2) mod 2 ^ 16
  /\ CPU._b (CPU.final r') = 0x42
  /\ CPU._pc (CPU.final r') = 0x0102.
Proof.
  intros r r'.
  destruct (step_LD_D_d8 (setup_cpu_with_instructions [0x16; 0x42] 0x0100) 0x42)
    as (Ho & Hd & Hpc); try (vm_compute; reflexivity).
  destruct (step_LD_B_d8 (setup_cpu_with_instructions [0x06; 0x42] 0x0100) 0x42)
    as (_ & Hb & Hpc'); try (vm_compute; reflexivity).
  subst r r'. rewrite Ho, Hd, Hpc, Hb, Hpc'.
  repeat split; vm_compute; congruence.
Qed.

(** ** Flags *)

Section Flags.
Import CPU.
Implicit Types (s : CPU.t) (z n h c : option bool).

Lemma masked_low_nibble x : Z.land x 0xF0 = x -> Z.land x 0x0F = 0.
Proof.
  intros H. rewrite <- H, <- Z.land_assoc.
  change (Z.land 0xF0 0x0F) with 0. apply Z.land_0_r.
Qed.

Lemma land_F0_masked x : Z.land (Z.land x 0xF0) 0xF0 = Z.land x 0xF0.
Proof. apply land_mask_idem. Qed.

(** Merging new flag bits under a mask that lies inside 0xF0. *)
Lemma merge_masked x flags mask :
  Z.land mask 0xF0 = mask ->
  Z.land x 0xF0 = x ->
  Z.land (Z.lor (Z.land x (Z.lnot mask)) (Z.land flags mask)) 0xF0
  = Z.lor (Z.land x (Z.lnot mask)) (Z.land flags mask).
Proof.
  intros Hmask Hx. rewrite Z.land_lor_distr_l. f_equal.
  - rewrite (Z.land_comm x), <- Z.land_assoc. by rewrite Hx.
  - rewrite <- Z.land_assoc. by rewrite Hmask.
Qed.

Lemma set_flags_masked z n h c : keeps_F_masked (_set_flags z n h c).
Proof.
  intros s Hs. unfold F_masked in *.
  destruct z, n, h, c; run_cpu; by apply merge_masked.
Qed.

(** The four flag bits after [_set_flags]: the keyword when it is given,
    the old bit otherwise. *)
Lemma set_flags_bits z n h c s :
  let f' := _f (final (_set_flags z n h c s)) in
  Z.testbit f' 7 = from_option id (Z.testbit (_f s) 7) z
  /\ Z.testbit f' 6 = from_option id (Z.testbit (_f s) 6) n
  /\ Z.testbit f' 5 = from_option id (Z.testbit (_f s) 5) h
  /\ Z.testbit f' 4 = from_option id (Z.testbit (_f s) 4) c.
Proof.
  destruct z as [[]|], n as [[]|], h as [[]|], c as [[]|]; run_cpu;
    repeat split;
    rewrite Z.lor_spec, !Z.land_spec, Z.lnot_spec by lia;
    match goal with
    | |- context [Z.testbit (_f s) ?k] =>
        generalize (Z.testbit (_f s) k); intros [|]; reflexivity
    end.
Qed.

(** *** Every method keeps F masked *)

Lemma keeps_ret {A} (x : A) : keeps_F_masked (mret x).
Proof. by intros s Hs. Qed.

Lemma keeps_bind {A B} (m : M A) (k : A -> M B) :
  keeps_F_masked m -> (forall x, keeps_F_masked (k x)) -> keeps_F_masked (m ≫= k).
Proof.
  intros Hm Hk s Hs. specialize (Hm s Hs).
  unfold mbind, M_bind. destruct (m s) as [[x|err] s1 t1]; cbn in *; [|done].
  specialize (Hk x s1 Hm). by destruct (k x s1).
Qed.

Lemma keeps_raise {A} err : keeps_F_masked (raise (A := A) err).
Proof. by intros s Hs. Qed.

Lemma keeps_gets {A} (g : t -> A) : keeps_F_masked (gets g).
Proof. by intros s Hs. Qed.

Lemma keeps_modify (g : t -> t) :
  (forall s, _f (g s) = _f s) -> keeps_F_masked (modify g).
Proof. intros Hg s Hs. unfold F_masked in *. cbn. by rewrite Hg. Qed.

Lemma keeps_mem_getitem address : keeps_F_masked (mem_getitem address).
Proof. by intros s Hs. Qed.

Lemma keeps_mem_setitem address value : keeps_F_masked (mem_setitem address value).
Proof.
  intros s Hs. unfold mem_setitem.
  by destruct (Memory.write (memory s) address value).
Qed.

Lemma keeps_set_f value : keeps_F_masked (set_f value).
Proof. intros s _. apply land_F0_masked. Qed.

(** Chains the lemmas above along the body of a method. *)
Ltac keeps :=
  repeat match goal with
    | |- keeps_F_masked (mbind _ _) => apply keeps_bind; [|intros ?]
    | |- keeps_F_masked (mret _) => apply keeps_ret
    | |- keeps_F_masked (raise _) => apply keeps_raise
    | |- keeps_F_masked (gets _) => apply keeps_gets
    | |- keeps_F_masked (mem_getitem _) => apply keeps_mem_getitem
    | |- keeps_F_masked (mem_setitem _ _) => apply keeps_mem_setitem
    | |- keeps_F_masked (_set_flags _ _ _ _) => apply set_flags_masked
    | |- keeps_F_masked (set_f _) => apply keeps_set_f
    | |- keeps_F_masked (modify _) => apply keeps_modify; intros ?; reflexivity
    end.

Ltac keeps_method :=
  cbv beta zeta delta
    [pc set_pc sp set_sp a set_a f b set_b c set_c d set_d e set_e
     h set_h l set_l af bc set_bc de set_de hl set_hl];
  keeps.

Lemma keeps_set_af value : keeps_F_masked (set_af value).
Proof. unfold set_af. cbv zeta. unfold set_a. keeps. Qed.

Lemma keeps_instr_unimplemented : keeps_F_masked instr_unimplemented.
Proof. unfold instr_unimplemented. keeps_method. Qed.

Lemma keeps_table :
  Forall (fun entry => keeps_F_masked (handler entry.2)) build_instruction_table.
Proof.
  unfold build_instruction_table.
  repeat (apply Forall_cons; split;
          [cbn [snd handler];
           match goal with |- keeps_F_masked ?m => unfold m end;
           keeps_method; fail|]).
  apply Forall_nil_2.
Qed.

Lemma keeps_handler opcode i :
  instructions !! opcode = Some i -> keeps_F_masked (handler i).
Proof.
  intros H. apply elem_of_list_to_map_2 in H.
  pose proof keeps_table as Htable. rewrite Forall_forall in Htable.
  exact (Htable _ H).
Qed.

Lemma keeps_step : keeps_F_masked step.
Proof.
  unfold step. apply keeps_bind; [keeps|]. intros [|]; [keeps|].
  keeps_method. destruct (instructions !! _) as [i|] eqn:Hi; cbn [default from_option id].
  - by eapply keeps_handler.
  - apply keeps_instr_unimplemented.
Qed.

Lemma init_F_masked (m : Memory.t) : F_masked (init m).
Proof. reflexivity. Qed.

Lemma run_steps_F_masked (k : nat) s : F_masked s -> F_masked (run_steps k s).
Proof.
  intros Hs. induction k as [|k IH]; [done|].
  unfold run_steps in *. cbn [Nat.iter]. by apply keeps_step.
Qed.

End Flags.

(** ** 8-bit INC and DEC *)

Section IncDec.
Import CPU.
Implicit Types (s : CPU.t).

(** One flag bit of the merged F, by cases on the booleans involved. *)
Ltac flag_bit :=
  rewrite Z.lor_spec, !Z.land_spec, Z.lnot_spec by lia;
  repeat match goal with
    | |- context [bool_decide ?P] => destruct (bool_decide P)
    | |- context [_check_half_carry_add ?x ?y] =>
        destruct (_check_half_carry_add x y)
    | |- context [_check_half_carry_sub ?x ?y] =>
        destruct (_check_half_carry_sub x y)
    | |- context [Z.testbit (_f ?s) ?k] => destruct (Z.testbit (_f s) k)
    end;
  reflexivity.

Ltac inc_dec instr :=
  unfold inc_dec_flags, instr; run_cpu;
  split; [reflexivity|]; repeat split; flag_bit.

Lemma INC_C_flags s : inc_dec_flags false _c s (final (instr_INC_C s)) false.
Proof. inc_dec instr_INC_C. Qed.
Lemma DEC_C_flags s : inc_dec_flags true _c s (final (instr_DEC_C s)) true.
Proof. inc_dec instr_DEC_C. Qed.
Lemma INC_D_flags s : inc_dec_flags false _d s (final (instr_INC_D s)) false.
Proof. inc_dec instr_INC_D. Qed.
Lemma DEC_D_flags s : inc_dec_flags true _d s (final (instr_DEC_D s)) true.
Proof. inc_dec instr_DEC_D. Qed.
Lemma INC_E_flags s : inc_dec_flags false _e s (final (instr_INC_E s)) false.
Proof. inc_dec instr_INC_E. Qed.
Lemma DEC_E_flags s : inc_dec_flags true _e s (final (instr_DEC_E s)) true.
Proof. inc_dec instr_DEC_E. Qed.
Lemma DEC_B_flags s : inc_dec_flags true _b s (final (instr_DEC_B s)) true.
Proof. inc_dec instr_DEC_B. Qed.

(** INC B passes no [subtract] keyword: N is the N of before. *)
Lemma INC_B_flags s :
  inc_dec_flags false _b s (final (instr_INC_B s)) (Z.testbit (_f s) 6).
Proof. inc_dec instr_INC_B. Qed.

End IncDec.

(** C3.  INC B (opcode 0x04) does not clear N: whatever the state, bit 6
    of F after the handler is bit 6 of F before.  The program [05 04] from
    power-on: DEC B takes B from 0x00 to 0xFF with F = 0x60 (N and H);
    INC B then takes B back to 0x00 and leaves F = 0xE0, N still set,
    where an INC should give N = 0, that is F = 0xA0.  The same program on
    register C, [0D 0C], ends with F = 0xA0. *)
Theorem C3_inc_b_keeps_subtract_flag :
  let s1 := run_steps 1 (setup_cpu_with_instructions [0x05; 0x04] 0x0100) in
  let s2 := run_steps 2 (setup_cpu_with_instructions [0x05; 0x04] 0x0100) in
  let s2' := run_steps 2 (setup_cpu_with_instructions [0x0D; 0x0C] 0x0100) in
  (forall s : CPU.t,
      Z.testbit (CPU._f (CPU.final (CPU.instr_INC_B s))) 6 = Z.testbit (CPU._f s) 6)
  /\ CPU._b s1 = 0xFF /\ CPU._f s1 = 0x60
  /\ CPU.outcome (CPU.step s1) = Ok 1
  /\ CPU._b s2 = 0x00 /\ CPU._f s2 = 0xE0
  /\ Z.testbit (CPU._f s2) 6 = true
  /\ CPU._c s2' = 0x00 /\ CPU._f s2' = 0xA0.
Proof.
  intros s1 s2 s2'. split.
  - intros s. apply (INC_B_flags s).
  - vm_compute. repeat split; reflexivity.
Qed.

(** ** The low nibble of F *)

Section LowNibble.
Import CPU.

Lemma shiftl_8_low_nibble x : Z.land (Z.shiftl x 8) 0x0F = 0.
Proof.
  apply Z.bits_inj'. intros k Hk.
  rewrite Z.land_spec, Z.bits_0.
  destruct (decide (k < 8)).
  - by rewrite Z.shiftl_spec_low by lia.
  - change 0x0F with (Z.ones 4). rewrite Z.ones_spec_high by lia.
    apply andb_false_r.
Qed.

End LowNibble.

(** C9.  The low nibble of F.  At power-on it is zero; [step] keeps F a
    value masked with 0xF0, whether it returns or raises, so the low nibble
    is zero after every instruction of any run from power-on.  The [f]
    setter stores [value & 0xF0] and the [af] setter stores the low byte of
    the pair masked with 0xF0; [_set_flags] stores a value that is
    unchanged by masking with 0xF0.  The [f] getter returns the stored
    value, and the [af] getter a value with the same low nibble, so every
    read of F has a zero low nibble. *)
Theorem C9_flags_low_nibble_zero :
  (forall m : Memory.t, Z.land (CPU._f (CPU.init m)) 0x0F = 0)
  /\ (forall s : CPU.t,
        F_masked s ->
        F_masked (CPU.final (CPU.step s))
        /\ Z.land (CPU._f (CPU.final (CPU.step s))) 0x0F = 0)
  /\ (forall (m : Memory.t) (k : nat),
        Z.land (CPU._f (run_steps k (CPU.init m))) 0x0F = 0)
  /\ (forall (s : CPU.t) (value : Z),
        CPU._f (CPU.final (CPU.set_f value s)) = Z.land value 0xF0
        /\ Z.land (CPU._f (CPU.final (CPU.set_f value s))) 0x0F = 0)
  /\ (forall (s : CPU.t) (value : Z),
        CPU._f (CPU.final (CPU.set_af value s))
        = Z.land (Z.land (Z.land value 0xFFFF) 0xF0) 0xF0
        /\ Z.land (CPU._f (CPU.final (CPU.set_af value s))) 0x0F = 0)
  /\ (forall (s : CPU.t) (z n h c : option bool),
        F_masked s ->
        F_masked (CPU.final (CPU._set_flags z n h c s))
        /\ Z.land (CPU._f (CPU.final (CPU._set_flags z n h c s))) 0x0F = 0)
  /\ (forall s : CPU.t,
        F_masked s ->
        (exists x, CPU.outcome (CPU.f s) = Ok x /\ Z.land x 0x0F = 0)
        /\ (exists x, CPU.outcome (CPU.af s) = Ok x /\ Z.land x 0x0F = 0)).
Proof.
  split; [reflexivity|].
  split.
  { intros s Hs. pose proof (keeps_step s Hs) as H.
    split; [exact H | by apply masked_low_nibble]. }
  split.
  { intros m k. apply masked_low_nibble.
    apply run_steps_F_masked, init_F_masked. }
  split.
  { intros s value. split; [reflexivity|].
    apply masked_low_nibble. apply land_F0_masked. }
  split.
  { intros s value. split; [reflexivity|].
    apply masked_low_nibble. run_cpu. apply land_F0_masked. }
  split.
  { intros s z n h c Hs. pose proof (set_flags_masked z n h c s Hs) as H.
    split; [exact H | by apply masked_low_nibble]. }
  intros s Hs. pose proof (masked_low_nibble _ Hs) as Hlow. split.
  - exists (CPU._f s). by split.
  - eexists. split; [reflexivity|].
    by rewrite Z.land_lor_distr_l, shiftl_8_low_nibble, Hlow.
Qed.

(** DEC B at power-on sets N and H: F goes from 0x00 to 0x60. *)
Lemma C9_flags_low_nibble_zero_witness :
  let s := setup_cpu_with_instructions [0x05] 0x0100 in
  CPU._f (CPU.final (CPU.step s)) = 0x60
  /\ Z.land (CPU._f (CPU.final (CPU.step s))) 0x0F = 0
  /\ Z.land (CPU._f (CPU.final (CPU._set_flags (Some true) None None (Some true) s))) 0x0F = 0
  /\ (exists x, CPU.outcome (CPU.f s) = Ok x /\ Z.land x 0x0F = 0).
Proof.
  intros s.
  destruct C9_flags_low_nibble_zero as (_ & Hstep & _ & _ & _ & Hflags & Hread).
  assert (Hs : F_masked s) by reflexivity.
  split; [vm_compute; reflexivity|].
  split; [exact (proj2 (Hstep s Hs))|].
  split; [exact (proj2 (Hflags s (Some true) None None (Some true) Hs))|].
  exact (proj1 (Hread s Hs)).
Defined.

(** The eight opcodes of the 8-bit INC and DEC and their handlers. *)
Lemma inc_dec_dispatch :
  CPU.handler <$> CPU.instructions !! 0x04 = Some CPU.instr_INC_B
  /\ CPU.handler <$> CPU.instructions !! 0x05 = Some CPU.instr_DEC_B
  /\ CPU.handler <$> CPU.instructions !! 0x0C = Some CPU.instr_INC_C
  /\ CPU.handler <$> CPU.instructions !! 0x0D = Some CPU.instr_DEC_C
  /\ CPU.handler <$> CPU.instructions !! 0x14 = Some CPU.instr_INC_D
  /\ CPU.handler <$> CPU.instructions !! 0x15 = Some CPU.instr_DEC_D
  /\ CPU.handler <$> CPU.instructions !! 0x1C = Some CPU.instr_INC_E
  /\ CPU.handler <$> CPU.instructions !! 0x1D = Some CPU.instr_DEC_E.
Proof. repeat split; reflexivity. Qed.

(** * Further properties of the bus *)

Section BusFacts.
Implicit Types (m : Memory.t) (address value : Z) (b : list Z).

Ltac regions := repeat (case_decide; try lia).

Lemma getitem_insert_ne b i j v :
  0 <= i -> 0 <= j -> i <> j ->
  Buf.getitem (<[Z.to_nat i := v]> b) j = Buf.getitem b j.
Proof.
  intros Hi Hj Hne. unfold Buf.getitem. cbv zeta.
  rewrite length_insert. regions.
  by rewrite list_lookup_insert_ne by lia.
Qed.

Lemma getitem_in_range b i :
  0 <= i < Z.of_nat (length b) -> exists x, Buf.getitem b i = Ok x /\ x ∈ b.
Proof.
  intros Hi. destruct (lookup_lt_is_Some_2 b (Z.to_nat i)) as [x Hx]; [lia|].
  exists x. split; [by apply getitem_lookup; [lia|] | by eapply list_elem_of_lookup_2].
Qed.

Lemma getitem_out_of_range b i :
  Z.of_nat (length b) <= i -> Buf.getitem b i = Raise IndexError.
Proof.
  intros Hi. unfold Buf.getitem. cbv zeta. regions.
  by rewrite lookup_ge_None_2 by lia.
Qed.

(** A store that succeeds has updated the cell, within the buffer. *)
Lemma store_ok set b i v m' :
  0 <= i ->
  Memory.store set b i v = Ok m' ->
  m' = set (<[Z.to_nat i := v]> b) /\ i < Z.of_nat (length b) /\ 0 <= v < 256.
Proof.
  intros Hi. unfold Memory.store, Buf.setitem. cbv zeta.
  regions; intros [= <-]; repeat split; lia.
Qed.

Lemma store_in_range set b i v :
  0 <= i < Z.of_nat (length b) ->
  Memory.store set b i (Z.land v 0xFF) = Ok (set (<[Z.to_nat i := Z.land v 0xFF]> b)).
Proof.
  intros Hi. unfold Memory.store.
  by rewrite setitem_in_range by (auto using land_255_byte).
Qed.

(** The write at an address that is not an echo, region by region. *)
Lemma write_direct m address value m' :
  sized m ->
  0x8000 <= address ->
  ~ 0xE000 <= address <= 0xFDFF ->
  Memory.write m address value = Ok m' ->
  Memory.mbc m' = Memory.mbc m
  /\ Memory.ie_register m' = Memory.ie_register m
  /\ forall other,
       ~ 0xE000 <= other <= 0xFDFF -> other <> address ->
       Memory.read m' other = Memory.read m other.
Proof.
  intros [] Hrom Hecho. rewrite Memory.write_equation_1. cbv zeta.
  regions; try discriminate; intros Hw;
    apply store_ok in Hw as (-> & _ & _); try lia;
    (split; [reflexivity|]; split; [reflexivity|]);
    intros other Ho Hne;
    rewrite (Memory.read_equation_1 _ other), (Memory.read_equation_1 m other);
    cbn [Memory.mbc Memory.vram Memory.eram Memory.wram Memory.oam Memory.io
         Memory.hram Memory.ie_register Memory.set_vram Memory.set_eram
         Memory.set_wram Memory.set_oam Memory.set_io Memory.set_hram];
    regions; try reflexivity; apply getitem_insert_ne; lia.
Qed.

Lemma read_cell m address :
  Memory.read m address = Memory.read m (cell_of address).
Proof. unfold cell_of. case_decide; [by apply read_echo | done]. Qed.

Lemma write_cell m address value :
  Memory.write m address value = Memory.write m (cell_of address) value.
Proof. unfold cell_of. case_decide; [by apply write_echo | done]. Qed.

Lemma cell_of_not_echo address : ~ 0xE000 <= cell_of address <= 0xFDFF.
Proof. unfold cell_of. case_decide; lia. Qed.

End BusFacts.

Section BusRoundTrip.
Implicit Types (m : Memory.t) (address value : Z).

Ltac regions := repeat (case_decide; try lia).

(** Write-then-read at a cell that is not an echo. *)
Lemma write_read_direct m address value :
  sized m -> ram_address address -> ~ 0xE000 <= address <= 0xFDFF ->
  exists m', Memory.write m address value = Ok m'
          /\ Memory.read m' address = Ok (Z.land value 0xFF).
Proof.
  intros [] Hram Hecho. unfold ram_address in Hram.
  rewrite Memory.write_equation_1. cbv zeta.
  regions; rewrite store_in_range by lia;
    (eexists; split; [reflexivity|]);
    rewrite Memory.read_equation_1; regions;
    cbn [Memory.vram Memory.eram Memory.wram Memory.oam Memory.io Memory.hram
         Memory.set_vram Memory.set_eram Memory.set_wram Memory.set_oam
         Memory.set_io Memory.set_hram];
    apply getitem_insert; lia.
Qed.

End BusRoundTrip.

(* A write to RAM succeeds and is read back masked. *)
Lemma write_ram_succeeds (m : Memory.t) (address value : Z) :
  sized m ->
  ram_address address ->
  exists m', Memory.write m address value = Ok m'
          /\ Memory.read m' address = Ok (Z.land value 0xFF).
Proof.
  intros Hm Hram. rewrite write_cell.
  destruct (write_read_direct m (cell_of address) value Hm) as (m' & Hw & Hr).
  - unfold ram_address, cell_of in *. case_decide; lia.
  - apply cell_of_not_echo.
  - exists m'. split; [done|]. by rewrite read_cell.
Qed.

(** X1.  Write-then-read.  On a bus with the buffer sizes of the
    constructor, a write at any RAM address (0x8000..0xFE9F or
    0xFF00..0xFFFE, echo included) succeeds, and a read at the same address
    then returns the value masked to 8 bits. *)
Theorem write_then_read (m : Memory.t) (address value : Z) :
  sized m ->
  ram_address address ->
  exists m', Memory.write m address value = Ok m'
          /\ Memory.read m' address = Ok (Z.land value 0xFF).
Proof. exact (write_ram_succeeds m address value). Qed.

Lemma fresh_sized (mbc : MBC.t) : sized (Memory.fresh mbc).
Proof. split; vm_compute; reflexivity. Qed.

Lemma write_then_read_witness :
  exists m', Memory.write (memory_with [] 0x0100) 0xFF80 0x1AA = Ok m'
          /\ Memory.read m' 0xFF80 = Ok 0xAA.
Proof.
  apply (write_then_read (memory_with [] 0x0100) 0xFF80 0x1AA).
  - apply fresh_sized.
  - right. lia.
Defined.

(* A successful write from 0x8000 on changes the cell it names only. *)
Lemma write_other_cells (m m' : Memory.t) (address value other : Z) :
  sized m ->
  0x8000 <= address ->
  Memory.write m address value = Ok m' ->
  cell_of other <> cell_of address ->
  Memory.read m' other = Memory.read m other
  /\ Memory.mbc m' = Memory.mbc m
  /\ Memory.ie_register m' = Memory.ie_register m.
Proof.
  intros Hm Hrom Hw Hne. rewrite write_cell in Hw.
  destruct (write_direct m (cell_of address) value m' Hm) as (Hmbc & Hie & Hread).
  - unfold cell_of. case_decide; lia.
  - apply cell_of_not_echo.
  - done.
  - split; [|done]. rewrite (read_cell m'), (read_cell m).
    apply Hread; [apply cell_of_not_echo | done].
Qed.

(** X2.  A RAM write changes one cell only.  After a successful write at
    an address from 0x8000 on, a read at any address that names another
    cell gives what it gave before (an echo address and the work-RAM
    address 0x2000 below it name the same cell), and the mapper and the
    IE byte are the same. *)
Theorem write_leaves_other_cells (m m' : Memory.t) (address value other : Z) :
  sized m ->
  0x8000 <= address ->
  Memory.write m address value = Ok m' ->
  cell_of other <> cell_of address ->
  Memory.read m' other = Memory.read m other
  /\ Memory.mbc m' = Memory.mbc m
  /\ Memory.ie_register m' = Memory.ie_register m.
Proof. exact (write_other_cells m m' address value other). Qed.

Lemma write_leaves_other_cells_witness :
  exists m',
    Memory.write (memory_with [0x3E] 0x0100) 0xE000 0x84 = Ok m'
    /\ Memory.read m' 0xC001 = Memory.read (memory_with [0x3E] 0x0100) 0xC001
    /\ Memory.read m' 0x0100 = Memory.read (memory_with [0x3E] 0x0100) 0x0100.
Proof.
  destruct (write_ram_succeeds (memory_with [0x3E] 0x0100) 0xE000 0x84)
    as (m' & Hw & _); [apply fresh_sized | left; lia |].
  exists m'. split; [exact Hw|]. split.
  - apply (write_leaves_other_cells _ m' 0xE000 0x84 0xC001);
      [apply fresh_sized | lia | exact Hw | vm_compute; discriminate].
  - apply (write_leaves_other_cells _ m' 0xE000 0x84 0x0100);
      [apply fresh_sized | lia | exact Hw | vm_compute; discriminate].
Defined.

(** X3.  Which writes succeed.  On a bus with the buffer sizes of the
    constructor, [Memory.write] succeeds exactly at 0x0000..0xFE9F and
    0xFF00..0xFFFE; at 0xFEA0..0xFEFF it raises the unusable-memory
    [ValueError] and at every other address, 0xFFFF included, the
    invalid-address [ValueError], each naming the address. *)
Theorem write_outcome (m : Memory.t) (address value : Z) :
  sized m ->
  (writable address <-> exists m', Memory.write m address value = Ok m')
  /\ (0xFEA0 <= address <= 0xFEFF <->
      Memory.write m address value = Raise (ProhibitedWrite address))
  /\ (address < 0 \/ 0xFFFF <= address <->
      Memory.write m address value = Raise (InvalidAddress address)).
Proof.
  intros Hm.
  assert (Hcases : writable address \/ 0xFEA0 <= address <= 0xFEFF
                   \/ address < 0 \/ 0xFFFF <= address)
    by (unfold writable; lia).
  assert (Hok : writable address -> exists m', Memory.write m address value = Ok m').
  { intros [Hw|Hw].
    - destruct (decide (address <= 0x7FFF)).
      + rewrite Memory.write_equation_1. cbv zeta.
        rewrite decide_True by lia. by eexists.
      + destruct (write_ram_succeeds m address value Hm) as (m' & Hw' & _);
          [left; lia | by exists m'].
    - destruct (write_ram_succeeds m address value Hm) as (m' & Hw' & _);
        [right; lia | by exists m']. }
  assert (Hpro : 0xFEA0 <= address <= 0xFEFF ->
                 Memory.write m address value = Raise (ProhibitedWrite address)).
  { intros H. rewrite Memory.write_equation_1. cbv zeta.
    repeat (case_decide; try lia). reflexivity. }
  assert (Hinv : address < 0 \/ 0xFFFF <= address ->
                 Memory.write m address value = Raise (InvalidAddress address)).
  { intros H. rewrite Memory.write_equation_1. cbv zeta.
    repeat (case_decide; try lia). reflexivity. }
  split; [|split]; (split; [by auto|]).
  - intros [m' Hw]. destruct Hcases as [Hc|[Hc|Hc]]; [done| |].
    + rewrite Hpro in Hw by done. discriminate.
    + rewrite Hinv in Hw by done. discriminate.
  - intros Hw. destruct Hcases as [Hc|[Hc|Hc]]; [|done|].
    + destruct (Hok Hc) as [m' Hm']. congruence.
    + rewrite Hinv in Hw by done. discriminate.
  - intros Hw. destruct Hcases as [Hc|[Hc|Hc]]; [| |done].
    + destruct (Hok Hc) as [m' Hm']. congruence.
    + rewrite Hpro in Hw by done. discriminate.
Qed.

Lemma write_outcome_witness :
  Memory.write (memory_with [] 0x0100) 0xFEA0 0x00 = Raise (ProhibitedWrite 0xFEA0)
  /\ Memory.write (memory_with [] 0x0100) 0x10000 0x00 = Raise (InvalidAddress 0x10000)
  /\ exists m', Memory.write (memory_with [] 0x0100) 0xFE9F 0x00 = Ok m'.
Proof.
  destruct (write_outcome (memory_with [] 0x0100) 0xFEA0 0x00 (fresh_sized _))
    as (_ & H1 & _).
  destruct (write_outcome (memory_with [] 0x0100) 0x10000 0x00 (fresh_sized _))
    as (_ & _ & H2).
  destruct (write_outcome (memory_with [] 0x0100) 0xFE9F 0x00 (fresh_sized _))
    as (H3 & _).
  split; [apply H1; lia|]. split; [apply H2; lia|].
  apply H3. left. lia.
Defined.

Section BusInvariants.
Implicit Types (m : Memory.t) (address value : Z).

Ltac regions := repeat (case_decide; try lia).

Lemma Forall_insert_byte (b : list Z) (i : nat) v :
  Forall is_byte b -> is_byte v -> Forall is_byte (<[i := v]> b).
Proof. intros Hb Hv. by apply Forall_insert. Qed.

Lemma mbc_write_rom (mbc : MBC.t) address value :
  rom_of (MBC.write mbc address value) = rom_of mbc.
Proof. destruct mbc; cbn; [done|]. by case_decide. Qed.

(** The shape of a bus after a successful write at a cell that is not an
    echo: the sizes, the bytes and the ROM are kept. *)
Lemma write_direct_keeps m address value m' :
  ~ 0xE000 <= address <= 0xFDFF ->
  Memory.write m address value = Ok m' ->
  (sized m -> sized m')
  /\ (holds_bytes m -> holds_bytes m')
  /\ rom_of (Memory.mbc m') = rom_of (Memory.mbc m).
Proof.
  intros Hecho. rewrite Memory.write_equation_1. cbv zeta.
  regions; try discriminate; intros Hw;
    try (apply store_ok in Hw as (-> & _ & Hv); [|lia]);
    try (injection Hw as <-);
    (split; [intros []; split; cbn; rewrite ?length_insert; done|]);
    (split; [intros []; split; cbn; rewrite ?mbc_write_rom;
             try done; apply Forall_insert_byte; try done; unfold is_byte; lia|]);
    cbn; by rewrite ?mbc_write_rom.
Qed.

End BusInvariants.

(* A successful write keeps sizes, byte contents and the ROM blob. *)
Lemma write_keeps_shape (m m' : Memory.t) (address value : Z) :
  Memory.write m address value = Ok m' ->
  (sized m -> sized m')
  /\ (holds_bytes m -> holds_bytes m')
  /\ rom_of (Memory.mbc m') = rom_of (Memory.mbc m).
Proof.
  intros Hw. rewrite write_cell in Hw.
  by apply (write_direct_keeps m (cell_of address) value m' (cell_of_not_echo address)).
Qed.

(** X4.  Writes keep the bus well formed.  A successful [Memory.write], at
    any address, leaves every buffer with its size, every cell a byte, and
    the ROM blob of the mapper as it was. *)
Theorem write_keeps_bus_well_formed (m m' : Memory.t) (address value : Z) :
  Memory.write m address value = Ok m' ->
  (sized m -> sized m')
  /\ (holds_bytes m -> holds_bytes m')
  /\ rom_of (Memory.mbc m') = rom_of (Memory.mbc m).
Proof. exact (write_keeps_shape m m' address value). Qed.

Lemma write_keeps_bus_well_formed_witness :
  exists m',
    Memory.write (memory_with [0x3E] 0x0100) 0xE000 0x184 = Ok m'
    /\ sized m'
    /\ rom_of (Memory.mbc m') = rom_with [0x3E] 0x0100.
Proof.
  destruct (write_ram_succeeds (memory_with [0x3E] 0x0100) 0xE000 0x184)
    as (m' & Hw & _); [apply fresh_sized | left; lia |].
  destruct (write_keeps_bus_well_formed _ m' 0xE000 0x184 Hw) as (Hs & _ & Hrom).
  exists m'. split; [exact Hw|]. split; [apply Hs, fresh_sized | exact Hrom].
Defined.

Section BusReads.
Implicit Types (m : Memory.t) (address value : Z).

Ltac regions := repeat (case_decide; try lia).

Lemma getitem_byte (b : list Z) i x :
  Forall is_byte b -> Buf.getitem b i = Ok x -> is_byte x.
Proof.
  intros Hb. unfold Buf.getitem. cbv zeta.
  regions; try discriminate;
    destruct (b !! _) as [y|] eqn:Hy; try discriminate;
    intros [= <-]; rewrite Forall_forall in Hb;
    apply Hb; by eapply list_elem_of_lookup_2.
Qed.

Lemma mbc_read_byte (mbc : MBC.t) address x :
  Forall is_byte (rom_of mbc) -> MBC.read mbc address = Ok x -> is_byte x.
Proof.
  intros Hb. destruct mbc; cbn in *; [by apply getitem_byte|].
  case_decide; by apply getitem_byte.
Qed.

Lemma read_direct_byte m address x :
  holds_bytes m -> ~ 0xE000 <= address <= 0xFDFF ->
  Memory.read m address = Ok x -> is_byte x.
Proof.
  intros [] Hecho. rewrite Memory.read_equation_1.
  regions; try discriminate;
    try (by apply getitem_byte); try (by apply mbc_read_byte);
    intros [= <-]; [unfold is_byte; lia | done].
Qed.

End BusReads.

(** X5.  Reads return bytes.  On a bus whose cells all hold bytes, whatever
    [Memory.read] returns is in 0..255. *)
Theorem read_returns_byte (m : Memory.t) (address x : Z) :
  holds_bytes m ->
  Memory.read m address = Ok x ->
  0 <= x <= 255.
Proof.
  intros Hm Hr. rewrite read_cell in Hr.
  by apply (read_direct_byte m (cell_of address) x Hm (cell_of_not_echo address)).
Qed.

Lemma replicate_bytes (n : nat) : Forall is_byte (replicate n 0).
Proof. apply Forall_replicate. unfold is_byte. lia. Qed.

Lemma rom_with_bytes (instructions : list Z) (start_addr : Z) :
  Forall is_byte instructions -> Forall is_byte (rom_with instructions start_addr).
Proof.
  intros H. unfold rom_with.
  repeat (apply Forall_app; split); auto using replicate_bytes.
Qed.

Lemma memory_with_bytes (instructions : list Z) (start_addr : Z) :
  Forall is_byte instructions -> holds_bytes (memory_with instructions start_addr).
Proof.
  intros H. split; cbn; try apply replicate_bytes.
  - by apply rom_with_bytes.
  - unfold is_byte. lia.
Qed.

Lemma read_returns_byte_witness :
  Memory.read (memory_with [0x3E] 0x0100) 0x0100 = Ok 0x3E /\ 0 <= 0x3E <= 255.
Proof.
  assert (H : Memory.read (memory_with [0x3E] 0x0100) 0x0100 = Ok 0x3E)
    by (vm_compute; reflexivity).
  split; [exact H|].
  apply (read_returns_byte (memory_with [0x3E] 0x0100) 0x0100 0x3E); [|exact H].
  apply memory_with_bytes. repeat constructor; unfold is_byte; lia.
Defined.

Section BusTotality.
Implicit Types (m : Memory.t) (address value : Z).

Ltac regions := repeat (case_decide; try lia).

Lemma read_ram_succeeds m address :
  sized m -> 0x8000 <= address <= 0xFFFF -> ~ 0xE000 <= address <= 0xFDFF ->
  exists x, Memory.read m address = Ok x.
Proof.
  intros [] Hram Hecho. rewrite Memory.read_equation_1.
  regions; try (by eexists);
    match goal with
    | |- exists x, Buf.getitem ?b ?i = Ok x =>
        destruct (getitem_in_range b i) as (x & Hx & _); [lia | by exists x]
    end.
Qed.

Lemma read_outside m address :
  address < 0 \/ 0xFFFF < address ->
  Memory.read m address = Raise (InvalidAddress address).
Proof. intros H. rewrite Memory.read_equation_1. regions. reflexivity. Qed.

Lemma read_rom_NoMBC m rom address :
  Memory.mbc m = MBC.NoMBC rom -> 0 <= address <= 0x7FFF ->
  Memory.read m address = Buf.getitem rom address.
Proof.
  intros Hmbc H. rewrite Memory.read_equation_1. regions. by rewrite Hmbc.
Qed.

End BusTotality.

(** X6.  Which reads succeed.  On a bus with the buffer sizes of the
    constructor, [Memory.read] returns a value at every address
    0x8000..0xFFFF and raises the invalid-address [ValueError], naming the
    address, below 0 and above 0xFFFF.  With the [NoMBC] mapper a read at
    0x0000..0x7FFF returns the ROM byte when the ROM is long enough and
    raises [IndexError] when the address is past the end of the ROM. *)
Theorem read_outcome (m : Memory.t) (address : Z) :
  sized m ->
  (0x8000 <= address <= 0xFFFF -> exists x, Memory.read m address = Ok x)
  /\ (address < 0 \/ 0xFFFF < address <->
      Memory.read m address = Raise (InvalidAddress address))
  /\ (forall rom,
        Memory.mbc m = MBC.NoMBC rom -> 0 <= address <= 0x7FFF ->
        (address < Z.of_nat (length rom) ->
         exists x, rom !! Z.to_nat address = Some x /\ Memory.read m address = Ok x)
        /\ (Z.of_nat (length rom) <= address ->
            Memory.read m address = Raise IndexError)).
Proof.
  intros Hm.
  assert (Hram : 0x8000 <= address <= 0xFFFF -> exists x, Memory.read m address = Ok x).
  { intros H. rewrite read_cell. apply read_ram_succeeds; [done| |apply cell_of_not_echo].
    unfold cell_of. case_decide; lia. }
  assert (Hrom : forall rom, Memory.mbc m = MBC.NoMBC rom -> 0 <= address <= 0x7FFF ->
            (address < Z.of_nat (length rom) ->
             exists x, rom !! Z.to_nat address = Some x /\ Memory.read m address = Ok x)
            /\ (Z.of_nat (length rom) <= address ->
                Memory.read m address = Raise IndexError)).
  { intros rom Hmbc H. rewrite (read_rom_NoMBC m rom) by done. split.
    - intros Hlt. destruct (lookup_lt_is_Some_2 rom (Z.to_nat address)) as [x Hx]; [lia|].
      exists x. split; [done|]. apply getitem_lookup; [lia|done].
    - apply getitem_out_of_range. }
  split; [done|]. split; [|done]. split; [apply read_outside|].
  intros Hr. destruct (decide (address < 0 \/ 0xFFFF < address)) as [|Hin]; [done|].
  destruct (decide (0x8000 <= address)).
  - destruct Hram as [x Hx]; [lia|]. congruence.
  - rewrite Memory.read_equation_1 in Hr. rewrite decide_True in Hr by lia.
    destruct (Memory.mbc m); cbn in Hr; unfold Buf.getitem in Hr; cbv zeta in Hr;
      repeat (case_decide; try lia); try discriminate;
      destruct (_ !! _); discriminate.
Qed.

(** The 0x7FFF-byte test cartridge ends one byte before the ROM window
    does. *)
Lemma read_outcome_witness :
  Memory.read (memory_with [] 0x0100) 0x7FFF = Raise IndexError
  /\ (exists x, Memory.read (memory_with [] 0x0100) 0xFFFF = Ok x)
  /\ Memory.read (memory_with [] 0x0100) 0xFFFFF = Raise (InvalidAddress 0xFFFFF).
Proof.
  destruct (read_outcome (memory_with [] 0x0100) 0x7FFF (fresh_sized _)) as (_ & _ & H1).
  destruct (read_outcome (memory_with [] 0x0100) 0xFFFF (fresh_sized _)) as (H2 & _).
  destruct (read_outcome (memory_with [] 0x0100) 0xFFFFF (fresh_sized _)) as (_ & H3 & _).
  split; [|split].
  - apply (H1 (rom_with [] 0x0100)); [reflexivity | lia | vm_compute; discriminate].
  - apply H2. lia.
  - apply H3. lia.
Defined.

Section BusConstruction.
Implicit Types (rom : list Z) (m : Memory.t).

Ltac regions := repeat (case_decide; try lia).

Lemma getitem_bytearray (n i : Z) :
  0 <= i < n -> Buf.getitem (Buf.bytearray n) i = Ok 0.
Proof.
  intros H. apply getitem_lookup; [lia|].
  apply lookup_replicate_2. lia.
Qed.

Lemma fresh_reads_zero (mbc : MBC.t) address :
  0x8000 <= address <= 0xFFFF -> ~ 0xE000 <= address <= 0xFDFF ->
  Memory.read (Memory.fresh mbc) address = Ok 0.
Proof.
  intros H Hecho. rewrite Memory.read_equation_1.
  regions; try reflexivity; cbn; apply getitem_bytearray; lia.
Qed.

Lemma init_ok_inv rom m :
  Memory.init rom = Ok m ->
  exists mbc_type,
    rom !! Z.to_nat 0x0147 = Some mbc_type
    /\ ((mbc_type = 0 /\ m = Memory.fresh (MBC.NoMBC rom))
        \/ (1 <= mbc_type <= 3 /\ m = Memory.fresh (MBC.MBC1 rom 1))).
Proof.
  unfold Memory.init, MBC.detect_mbc, Buf.getitem. cbv zeta.
  regions; try discriminate.
  destruct (rom !! Z.to_nat 0x0147) as [t|] eqn:Ht; [|discriminate].
  regions; try discriminate; intros [= <-]; exists t; (split; [done|]).
  - left. by split.
  - right. split; [lia|done].
Qed.

End BusConstruction.

(** X7.  A new bus.  When [Memory(rom)] succeeds the ROM is longer than
    0x0147 bytes, the mapper holds that ROM (an MBC1 with bank 1
    selected), the buffers have their sizes, and every address
    0x8000..0xFFFF reads 0. *)
Theorem init_gives_zeroed_bus (rom : list Z) (m : Memory.t) :
  Memory.init rom = Ok m ->
  0x0147 < Z.of_nat (length rom)
  /\ rom_of (Memory.mbc m) = rom
  /\ (forall bank, Memory.mbc m = MBC.MBC1 rom bank -> bank = 1)
  /\ sized m
  /\ (forall address, 0x8000 <= address <= 0xFFFF -> Memory.read m address = Ok 0).
Proof.
  intros Hinit. destruct (init_ok_inv rom m Hinit) as (t & Ht & Hm).
  apply lookup_lt_Some in Ht.
  assert (Hfresh : exists mbc, m = Memory.fresh mbc /\ rom_of mbc = rom
                               /\ forall bank, mbc = MBC.MBC1 rom bank -> bank = 1).
  { destruct Hm as [[_ ->]|[_ ->]]; eexists; (split; [reflexivity|]);
      (split; [reflexivity|]); intros bank; [discriminate | by intros [= <-]]. }
  destruct Hfresh as (mbc & -> & Hrom & Hbank).
  split; [lia|]. split; [done|]. split; [done|]. split; [apply fresh_sized|].
  intros address H. rewrite read_cell. apply fresh_reads_zero.
  - unfold cell_of. case_decide; lia.
  - apply cell_of_not_echo.
Qed.

Lemma init_gives_zeroed_bus_witness :
  Memory.init (rom_with [0x3E; 0x42] 0x0100) = Ok (memory_with [0x3E; 0x42] 0x0100)
  /\ Memory.read (memory_with [0x3E; 0x42] 0x0100) 0xE123 = Ok 0.
Proof.
  assert (H : Memory.init (rom_with [0x3E; 0x42] 0x0100)
              = Ok (memory_with [0x3E; 0x42] 0x0100)).
  { apply memory_with_init; [lia | left; cbn; lia | cbn; lia]. }
  split; [exact H|].
  destruct (init_gives_zeroed_bus _ _ H) as (_ & _ & _ & _ & Hz).
  apply Hz. lia.
Defined.

(** X8.  Construction failures.  [Memory(rom)] raises [IndexError] when the
    ROM has no byte 0x0147, and the unsupported-mapper error, naming the
    byte, when that byte is not 0, 1, 2 or 3. *)
Theorem init_failures (rom : list Z) :
  (Z.of_nat (length rom) <= 0x0147 -> Memory.init rom = Raise IndexError)
  /\ (forall mbc_type,
        rom !! Z.to_nat 0x0147 = Some mbc_type ->
        ~ 0 <= mbc_type <= 3 ->
        Memory.init rom = Raise (UnsupportedMapper mbc_type)).
Proof.
  split.
  - intros H. unfold Memory.init, MBC.detect_mbc.
    by rewrite getitem_out_of_range.
  - intros t Ht Hne. unfold Memory.init, MBC.detect_mbc.
    rewrite (getitem_lookup rom 0x0147 t) by (done || lia).
    repeat (case_decide; try lia). reflexivity.
Qed.

Lemma init_failures_witness :
  Memory.init [] = Raise IndexError
  /\ Memory.init (replicate (Z.to_nat 0x0147) 0 ++ [0x05]) = Raise (UnsupportedMapper 0x05).
Proof.
  destruct (init_failures []) as (H1 & _).
  destruct (init_failures (replicate (Z.to_nat 0x0147) 0 ++ [0x05])) as (_ & H2).
  split; [apply H1; cbn; lia|].
  apply H2; [vm_compute; reflexivity | lia].
Defined.

Section BankSwitching.
Implicit Types (m : Memory.t) (rom : list Z) (address value : Z).

Lemma land_255_31 value : Z.land (Z.land value 0xFF) 31 = Z.land value 31.
Proof. rewrite <- Z.land_assoc. reflexivity. Qed.

Lemma write_rom_range m address value :
  0 <= address <= 0x7FFF ->
  Memory.write m address value
  = Ok (Memory.set_mbc m (MBC.write (Memory.mbc m) address (Z.land value 0xFF))).
Proof.
  intros H. rewrite Memory.write_equation_1. cbv zeta.
  by rewrite decide_True by lia.
Qed.

Lemma read_rom_range m address :
  0 <= address <= 0x7FFF ->
  Memory.read m address = MBC.read (Memory.mbc m) address.
Proof.
  intros H. rewrite Memory.read_equation_1. by rewrite decide_True by lia.
Qed.

End BankSwitching.

(** X9.  Writes into the ROM window.  A write at 0x0000..0x7FFF always
    succeeds and changes no RAM buffer.  With [NoMBC] the bus is exactly as
    before.  With MBC1 a write at 0x2000..0x3FFF selects the bank given by
    the low five bits of the value (1 when they are 0), after which the
    window 0x4000..0x7FFF reads that bank of the ROM while 0x0000..0x3FFF
    still reads bank 0; a write elsewhere in the window keeps the bank. *)
Theorem rom_window_write (m : Memory.t) (address value : Z) :
  0 <= address <= 0x7FFF ->
  exists m',
    Memory.write m address value = Ok m'
    /\ Memory.vram m' = Memory.vram m /\ Memory.eram m' = Memory.eram m
    /\ Memory.wram m' = Memory.wram m /\ Memory.oam m' = Memory.oam m
    /\ Memory.io m' = Memory.io m /\ Memory.hram m' = Memory.hram m
    /\ Memory.ie_register m' = Memory.ie_register m
    /\ (forall rom, Memory.mbc m = MBC.NoMBC rom -> m' = m)
    /\ (forall rom bank,
          Memory.mbc m = MBC.MBC1 rom bank ->
          let bank' :=
            if decide (0x2000 <= address <= 0x3FFF)
            then (if decide (Z.land value 0x1F = 0) then 1 else Z.land value 0x1F)
            else bank in
          Memory.mbc m' = MBC.MBC1 rom bank'
          /\ (forall a, 0x4000 <= a <= 0x7FFF ->
                Memory.read m' a = Buf.getitem rom (a - 0x4000 + bank' * 0x4000))
          /\ (forall a, 0 <= a < 0x4000 -> Memory.read m' a = Buf.getitem rom a)).
Proof.
  intros H. eexists. split; [by apply write_rom_range|].
  repeat (split; [reflexivity|]). split.
  - intros rom Hmbc. destruct m. cbn in *. subst. reflexivity.
  - intros rom bank Hmbc bank'.
    assert (Hm' : MBC.write (Memory.mbc m) address (Z.land value 0xFF) = MBC.MBC1 rom bank').
    { rewrite Hmbc. subst bank'. cbn. case_decide; [|done].
      rewrite land_255_31. reflexivity. }
    split; [exact Hm'|]. split.
    + intros a Ha. rewrite read_rom_range by lia. cbn [Memory.mbc Memory.set_mbc].
      rewrite Hm'. cbn. by rewrite decide_False by lia.
    + intros a Ha. rewrite read_rom_range by lia. cbn [Memory.mbc Memory.set_mbc].
      rewrite Hm'. cbn. by rewrite decide_True by lia.
Qed.

Lemma rom_window_write_witness :
  exists m',
    Memory.write (Memory.fresh (MBC.MBC1 (replicate (Z.to_nat 0x8000) 0 ++ [0x77]) 1))
                 0x2100 0xE2 = Ok m'
    /\ Memory.mbc m' = MBC.MBC1 (replicate (Z.to_nat 0x8000) 0 ++ [0x77]) 2
    /\ Memory.read m' 0x4000 = Ok 0x77.
Proof.
  destruct (rom_window_write
              (Memory.fresh (MBC.MBC1 (replicate (Z.to_nat 0x8000) 0 ++ [0x77]) 1))
              0x2100 0xE2) as (m' & Hw & _ & _ & _ & _ & _ & _ & _ & _ & Hmbc1); [lia|].
  destruct (Hmbc1 _ 1 eq_refl) as (Hb & Hhigh & _).
  exists m'. split; [exact Hw|]. split; [exact Hb|].
  rewrite Hhigh by lia. vm_compute. reflexivity.
Defined.

(** * Further properties of the CPU *)

Section Preservation.
Import CPU.
Context (P : CPU.t -> Prop).
Implicit Types (s : CPU.t).

Lemma preserves_ret {A} (x : A) : preserves P (mret x).
Proof. by intros s Hs. Qed.

Lemma preserves_bind {A B} (m : M A) (k : A -> M B) :
  preserves P m -> (forall x, preserves P (k x)) -> preserves P (m ≫= k).
Proof.
  intros Hm Hk s Hs. specialize (Hm s Hs).
  unfold mbind, M_bind. destruct (m s) as [[x|err] s1 t1]; cbn in *; [|done].
  specialize (Hk x s1 Hm). by destruct (k x s1).
Qed.

Lemma preserves_raise {A} err : preserves P (raise (A := A) err).
Proof. by intros s Hs. Qed.

Lemma preserves_gets {A} (g : t -> A) : preserves P (gets g).
Proof. by intros s Hs. Qed.

Lemma preserves_modify (g : t -> t) :
  (forall s, P s -> P (g s)) -> preserves P (modify g).
Proof. intros Hg s Hs. by apply Hg. Qed.

Lemma preserves_mem_getitem address : preserves P (mem_getitem address).
Proof. by intros s Hs. Qed.

Lemma preserves_mem_setitem address value :
  (forall s m', P s -> Memory.write (memory s) address value = Ok m' ->
                P (with_memory s m')) ->
  preserves P (mem_setitem address value).
Proof.
  intros Hw s Hs. unfold mem_setitem.
  destruct (Memory.write (memory s) address value) eqn:E; cbn; [by eapply Hw | done].
Qed.

Lemma preserves_instr_unimplemented : preserves P instr_unimplemented.
Proof.
  unfold instr_unimplemented, pc.
  apply preserves_bind; [apply preserves_gets|]. intros p.
  apply preserves_bind; [apply preserves_mem_getitem|]. intros op.
  apply preserves_raise.
Qed.

(** What a call leaves when its result is passed on unchanged. *)
Lemma final_then_ret {A} (m : M unit) (x : A) s :
  final ((m;; mret x) s) = final (m s).
Proof. unfold mbind, M_bind, mret, M_ret. by destruct (m s) as [[[]|err] s1 t1]. Qed.

(** [step] keeps [P] when the PC setter does and when the handler of the
    fetched opcode does; [skip] lists the opcodes whose handlers are not
    asked to. *)
Lemma preserves_step (skip : Z -> Prop) :
  (forall value, preserves P (set_pc value)) ->
  Forall (fun entry => ~ skip entry.1 -> preserves P (handler entry.2))
         build_instruction_table ->
  forall s,
    P s ->
    (forall op, Memory.read (memory s) (_pc s) = Ok op -> ~ skip op) ->
    P (final (step s)).
Proof.
  intros Hpc Htable s Hs Hskip. unfold step.
  cbv beta iota zeta delta [mbind M_bind gets pc mem_getitem].
  destruct (halted s); [done|].
  destruct (Memory.read (memory s) (_pc s)) as [op|err] eqn:Hop; [|done].
  specialize (Hskip op eq_refl).
  pose proof (Hpc (_pc s + 1) s Hs) as H1.
  destruct (set_pc (_pc s + 1) s) as [[[]|?] s1 t1] eqn:E1; [|done]. cbn in H1.
  pose proof (Hpc (Z.land (_pc s1) 0xFFFF) s1 H1) as H2.
  destruct (set_pc (Z.land (_pc s1) 0xFFFF) s1) as [[[]|?] s2 t2] eqn:E2; [|done].
  cbn in H2.
  assert (Hh : preserves P
                 (handler (default (mkInstruction "not implemented" 0 0 0
                                                  instr_unimplemented)
                                   (instructions !! op)))).
  { destruct (instructions !! op) as [i|] eqn:Hi; cbn [default from_option id handler].
    - apply elem_of_list_to_map_2 in Hi.
      rewrite Forall_forall in Htable. by apply (Htable _ Hi).
    - apply preserves_instr_unimplemented. }
  specialize (Hh s2 H2).
  destruct (handler _ s2) as [[[]|?] s3 t3]; cbn in *; done.
Qed.

End Preservation.

(** Chains the preservation lemmas along the body of a method; [tac]
    settles what an assignment or a store does to the property. *)
Ltac preserve_with tac :=
  cbv beta zeta delta
    [CPU.pc CPU.set_pc CPU.sp CPU.set_sp CPU.a CPU.set_a CPU.f CPU.set_f
     CPU.b CPU.set_b CPU.c CPU.set_c CPU.d CPU.set_d CPU.e CPU.set_e
     CPU.h CPU.set_h CPU.l CPU.set_l CPU.af CPU.set_af CPU.bc CPU.set_bc
     CPU.de CPU.set_de CPU.hl CPU.set_hl CPU._set_flags];
  repeat match goal with
    | |- preserves _ (mbind _ _) => apply preserves_bind; [|intros ?]
    | |- preserves _ (mret _) => apply preserves_ret
    | |- preserves _ (CPU.raise _) => apply preserves_raise
    | |- preserves _ (CPU.gets _) => apply preserves_gets
    | |- preserves _ (CPU.mem_getitem _) => apply preserves_mem_getitem
    | |- preserves _ (CPU.mem_setitem _ _) => apply preserves_mem_setitem; tac
    | |- preserves _ (CPU.modify _) => apply preserves_modify; tac
    end.

(** The same for every handler of the dispatch table but the skipped
    ones. *)
Ltac preserve_table tac :=
  unfold CPU.build_instruction_table;
  repeat (apply Forall_cons; split;
          [cbn [fst snd CPU.handler]; intros Hskip;
           first [ solve [ match goal with |- preserves _ ?m => unfold m end;
                           preserve_with tac ]
                 | exfalso; apply Hskip; unfold stores_to_bus, sets_flags; lia ]
          |]);
  apply Forall_nil_2.

Section RegisterRanges.
Import CPU.

Lemma land_255_range v : 0 <= Z.land v 0xFF <= 0xFF.
Proof. pose proof (land_255_byte v). lia. Qed.

Lemma land_16_range v : 0 <= Z.land v 0xFFFF <= 0xFFFF.
Proof.
  rewrite land_16_mod. pose proof (Z.mod_pos_bound v (2 ^ 16)). lia.
Qed.

Ltac in_range :=
  first [ intros ? ? [] _; split; cbn; done
        | intros ? []; split; cbn;
          auto using land_255_range, land_16_range ].

Lemma set_pc_in_range value : preserves regs_in_range (set_pc value).
Proof. preserve_with in_range. Qed.

Lemma table_in_range :
  Forall (fun entry => ~ False -> preserves regs_in_range (handler entry.2))
         build_instruction_table.
Proof. preserve_table in_range. Qed.

Lemma step_in_range s : regs_in_range s -> regs_in_range (final (step s)).
Proof.
  intros Hs.
  apply (preserves_step regs_in_range (fun _ => False)
           set_pc_in_range table_in_range s Hs).
  tauto.
Qed.

Lemma init_in_range (m : Memory.t) : regs_in_range (init m).
Proof. split; cbn; lia. Qed.

Lemma masked_range x : Z.land x 0xF0 = x -> 0 <= x <= 0xF0.
Proof.
  intros H. rewrite <- H.
  assert (Hmod : Z.land x 0xF0 = Z.land (Z.land x 0xF0) 0xFF)
    by (by rewrite <- Z.land_assoc).
  pose proof (land_255_byte (Z.land x 0xF0)) as Hb. rewrite <- Hmod in Hb.
  pose proof (masked_low_nibble (Z.land x 0xF0) (land_mask_idem x 0xF0)) as Hlow.
  change 0x0F with (Z.ones 4) in Hlow. rewrite Z.land_ones in Hlow by lia.
  Z.div_mod_to_equations. lia.
Qed.

End RegisterRanges.

(** X10.  Register widths.  At power-on the 8-bit registers are in
    0x00..0xFF and PC and SP in 0x0000..0xFFFF; [step] keeps them there,
    whether it returns or raises, and keeps F in 0x00..0xF0; so they hold
    after any number of steps from power-on. *)
Theorem step_keeps_register_widths :
  (forall s : CPU.t,
      regs_in_range s -> F_masked s ->
      regs_in_range (CPU.final (CPU.step s))
      /\ 0 <= CPU._f (CPU.final (CPU.step s)) <= 0xF0)
  /\ (forall (m : Memory.t) (k : nat),
        regs_in_range (run_steps k (CPU.init m))
        /\ 0 <= CPU._f (run_steps k (CPU.init m)) <= 0xF0).
Proof.
  split.
  - intros s Hs Hf. split; [by apply step_in_range|].
    apply masked_range. by apply keeps_step.
  - intros m k. split.
    + induction k as [|k IH]; [apply init_in_range|].
      unfold run_steps in *. cbn [Nat.iter]. by apply step_in_range.
    + apply masked_range. apply run_steps_F_masked, init_F_masked.
Qed.

Lemma step_keeps_register_widths_witness :
  let s := CPU.final (CPU.step (setup_cpu_with_instructions [0x0B] 0x0100)) in
  CPU._b s = 0xFF /\ CPU._c s = 0xFF /\ regs_in_range s.
Proof.
  intros s. split; [vm_compute; reflexivity|]. split; [vm_compute; reflexivity|].
  destruct step_keeps_register_widths as (Hstep & _).
  apply Hstep; [apply init_in_range | reflexivity].
Defined.

Section BusThroughStep.
Import CPU.

Ltac bus_kept :=
  first [ intros ? ? [] Hw; cbn;
          destruct (write_keeps_shape _ _ _ _ Hw) as (? & ? & _);
          split; auto
        | intros ? []; split; cbn; done ].

Lemma set_pc_bus value : preserves bus_well_formed (set_pc value).
Proof. preserve_with bus_kept. Qed.

Lemma table_bus :
  Forall (fun entry => ~ False -> preserves bus_well_formed (handler entry.2))
         build_instruction_table.
Proof. preserve_table bus_kept. Qed.

End BusThroughStep.

(** X11.  The bus stays well formed.  If the bus of the CPU has the buffer
    sizes of the constructor and holds bytes, it still does after [step],
    whether [step] returns or raises. *)
Theorem step_keeps_bus_well_formed (s : CPU.t) :
  bus_well_formed s -> bus_well_formed (CPU.final (CPU.step s)).
Proof.
  intros Hs.
  apply (preserves_step bus_well_formed (fun _ => False) set_pc_bus table_bus s Hs).
  tauto.
Qed.

Lemma step_keeps_bus_well_formed_witness :
  bus_well_formed
    (CPU.final (CPU.step (setup_cpu_with_instructions [0x08; 0x00; 0xC0] 0x0100))).
Proof.
  apply step_keeps_bus_well_formed. split.
  - apply fresh_sized.
  - apply memory_with_bytes. repeat constructor; unfold is_byte; lia.
Defined.

Section Untouched.
Import CPU.

Ltac same_field :=
  first [ intros ? ? ? _; cbn; done | intros ? ?; cbn; done ].

Lemma set_pc_sp x value : preserves (fun s => _sp s = x) (set_pc value).
Proof. preserve_with same_field. Qed.

Lemma table_sp x :
  Forall (fun entry => ~ False -> preserves (fun s => _sp s = x) (handler entry.2))
         build_instruction_table.
Proof. preserve_table same_field. Qed.

Lemma set_pc_memory x value : preserves (fun s => memory s = x) (set_pc value).
Proof. preserve_with same_field. Qed.

Lemma table_memory x :
  Forall (fun entry => ~ stores_to_bus entry.1 ->
                       preserves (fun s => memory s = x) (handler entry.2))
         build_instruction_table.
Proof. preserve_table same_field. Qed.

Lemma set_pc_flags x value : preserves (fun s => _f s = x) (set_pc value).
Proof. preserve_with same_field. Qed.

Lemma table_flags x :
  Forall (fun entry => ~ sets_flags entry.1 ->
                       preserves (fun s => _f s = x) (handler entry.2))
         build_instruction_table.
Proof. preserve_table same_field. Qed.

Lemma set_pc_running value : preserves (fun s => halted s = false) (set_pc value).
Proof. preserve_with same_field. Qed.

Lemma table_running :
  Forall (fun entry => ~ entry.1 = 0x76 ->
                       preserves (fun s => halted s = false) (handler entry.2))
         build_instruction_table.
Proof. preserve_table same_field. Qed.

Lemma stores_to_bus_dec op : Decision (stores_to_bus op).
Proof. unfold stores_to_bus. apply _. Qed.

Lemma sets_flags_dec op : Decision (sets_flags op).
Proof. unfold sets_flags. apply _. Qed.

End Untouched.

(** X12.  SP is never written.  No instruction of the table assigns SP:
    after [step], returned or raised, SP is what it was. *)
Theorem step_never_changes_sp (s : CPU.t) :
  CPU._sp (CPU.final (CPU.step s)) = CPU._sp s.
Proof.
  apply (preserves_step (fun s' => CPU._sp s' = CPU._sp s) (fun _ => False)
           (set_pc_sp _) (table_sp _) s eq_refl).
  tauto.
Qed.

(** X13.  Only three opcodes store.  If [step] leaves a bus different from
    the one it was given, the opcode it fetched is 0x02 (LD (BC),A), 0x08
    (LD (a16),SP) or 0x12 (LD (DE),A). *)
Theorem step_changes_bus_only_by_stores (s : CPU.t) :
  CPU.memory (CPU.final (CPU.step s)) = CPU.memory s
  \/ exists op, Memory.read (CPU.memory s) (CPU._pc s) = Ok op /\ stores_to_bus op.
Proof.
  destruct (Memory.read (CPU.memory s) (CPU._pc s)) as [op|err] eqn:Hop.
  - destruct (stores_to_bus_dec op) as [Hst|Hst]; [right; by exists op|].
    left.
    apply (preserves_step (fun s' => CPU.memory s' = CPU.memory s) stores_to_bus
             (set_pc_memory _) (table_memory _) s eq_refl).
    intros op' Hop'. congruence.
  - left.
    apply (preserves_step (fun s' => CPU.memory s' = CPU.memory s) stores_to_bus
             (set_pc_memory _) (table_memory _) s eq_refl).
    intros op' Hop'. congruence.
Qed.

(** X14.  Only thirteen opcodes touch F.  If [step] leaves an F different
    from the one it was given, the opcode it fetched is an 8-bit INC or
    DEC, a rotate of A or an ADD HL,rr.  Loads, 16-bit INC and DEC, jumps,
    STOP and HALT keep all four flags. *)
Theorem step_changes_flags_only_by_flag_opcodes (s : CPU.t) :
  CPU._f (CPU.final (CPU.step s)) = CPU._f s
  \/ exists op, Memory.read (CPU.memory s) (CPU._pc s) = Ok op /\ sets_flags op.
Proof.
  destruct (Memory.read (CPU.memory s) (CPU._pc s)) as [op|err] eqn:Hop.
  - destruct (sets_flags_dec op) as [Hst|Hst]; [right; by exists op|].
    left.
    apply (preserves_step (fun s' => CPU._f s' = CPU._f s) sets_flags
             (set_pc_flags _) (table_flags _) s eq_refl).
    intros op' Hop'. congruence.
  - left.
    apply (preserves_step (fun s' => CPU._f s' = CPU._f s) sets_flags
             (set_pc_flags _) (table_flags _) s eq_refl).
    intros op' Hop'. congruence.
Qed.

Section HaltState.
Import CPU.

Lemma lookup_HALT :
  instructions !! 0x76 = Some (mkInstruction "HALT" 0x76 1 1 instr_HALT).
Proof. reflexivity. Qed.

Lemma run_steps_halted (k : nat) s : halted s = true -> run_steps k s = s.
Proof.
  intros Hs. induction k as [|k IH]; [done|].
  unfold run_steps in *. rewrite Nat.iter_succ, IH.
  by rewrite step_halted.
Qed.

End HaltState.

(** X15.  The HALT state.  A halted CPU stays as it is under any number of
    steps: nothing in [step] clears the flag.  A running CPU that is
    halted after a [step] has fetched opcode 0x76; and fetching 0x76 sets
    the flag, moves PC past the opcode, reads the bus once and returns 1
    cycle. *)
Theorem halt_state (s : CPU.t) :
  (forall k : nat, CPU.halted s = true -> run_steps k s = s)
  /\ (CPU.halted s = false ->
      CPU.halted (CPU.final (CPU.step s)) = true ->
      Memory.read (CPU.memory s) (CPU._pc s) = Ok 0x76)
  /\ (CPU.halted s = false ->
      Memory.read (CPU.memory s) (CPU._pc s) = Ok 0x76 ->
      CPU.step s
      = CPU.Run (Ok 1)
          (CPU.with_halted (CPU.with_pc s (Z.land (CPU._pc s + 1) 0xFFFF)) true)
          [CPU.BusRead (CPU._pc s)]).
Proof.
  split; [intros k; apply run_steps_halted|]. split.
  - intros Hrun Hhalt.
    destruct (Memory.read (CPU.memory s) (CPU._pc s)) as [op|err] eqn:Hop.
    + destruct (decide (op = 0x76)) as [->|Hne]; [done|].
      rewrite (preserves_step (fun s' => CPU.halted s' = false) (fun op => op = 0x76)
                 set_pc_running table_running s Hrun) in Hhalt; [done|].
      intros op' Hop'. congruence.
    + rewrite (preserves_step (fun s' => CPU.halted s' = false) (fun op => op = 0x76)
                 set_pc_running table_running s Hrun) in Hhalt; [done|].
      intros op' Hop'. congruence.
  - intros Hrun Hop.
    unfold CPU.step. run_cpu. rewrite Hrun. run_cpu. rewrite Hop. run_cpu.
    rewrite lookup_HALT. run_cpu. unfold CPU.instr_HALT. run_cpu.
    by rewrite !land_mask_idem.
Qed.

Lemma halt_state_witness :
  let s := setup_cpu_with_instructions [0x76; 0x04] 0x0100 in
  CPU.outcome (CPU.step s) = Ok 1
  /\ CPU.halted (CPU.final (CPU.step s)) = true
  /\ run_steps 3 (CPU.final (CPU.step s)) = CPU.final (CPU.step s).
Proof.
  intros s.
  destruct (halt_state s) as (_ & _ & Hhalt).
  rewrite Hhalt; [|reflexivity|vm_compute; reflexivity].
  split; [reflexivity|]. split; [reflexivity|].
  match goal with |- run_steps 3 ?s' = _ =>
    destruct (halt_state s') as (Hstay & _) end.
  apply Hstay. reflexivity.
Defined.

Section Cycles.
Import CPU.

Lemma table_cycles :
  Forall (fun entry => 1 <= cycles entry.2 <= 5 /\ 1 <= length entry.2 <= 3
                       /\ opcode entry.2 = entry.1)
         build_instruction_table.
Proof.
  unfold build_instruction_table.
  repeat (apply Forall_cons; split; [cbn; lia|]). apply Forall_nil_2.
Qed.

Lemma instr_unimplemented_raises s : exists err, outcome (instr_unimplemented s) = Raise err.
Proof.
  unfold instr_unimplemented. run_cpu.
  destruct (Memory.read _ _); run_cpu; by eexists.
Qed.

(** A running [step] that returns has found the fetched opcode in the
    table and returns the cycles of its entry. *)
Lemma step_returns s n :
  halted s = false ->
  outcome (step s) = Ok n ->
  exists op i,
    Memory.read (memory s) (_pc s) = Ok op
    /\ instructions !! op = Some i
    /\ n = cycles i
    /\ outcome (handler i (with_pc s (Z.land (_pc s + 1) 0xFFFF))) = Ok tt
    /\ final (step s)
       = final (handler i (with_pc s (Z.land (_pc s + 1) 0xFFFF))).
Proof.
  intros Hrun. destruct s as [m pc0 ? ? ? ? ? ? ? ? ? ?]. cbn [halted] in Hrun. subst.
  unfold step. run_cpu.
  destruct (Memory.read m pc0) as [op|err]; run_cpu; [|discriminate].
  rewrite !land_mask_idem.
  destruct (instructions !! op) as [i|] eqn:Hi; run_cpu.
  - destruct (handler i _) as [[[]|err] s' t'] eqn:Hh; run_cpu; [|discriminate].
    intros [= <-]. exists op, i. repeat split; try done; by rewrite Hh.
  - match goal with |- context [instr_unimplemented ?s'] =>
      destruct (instr_unimplemented_raises s') as [err Herr];
      destruct (instr_unimplemented s') as [o s'' t'']
    end.
    cbn in Herr. subst o. discriminate.
Qed.

End Cycles.

(** X16.  Cycle counts.  When [step] returns [n]: either the CPU was
    halted and [n = 0], or it was running, the fetched opcode has an entry
    in the dispatch table, and [n] is the cycle count of that entry, which
    is between 1 and 5.  So [step] returns 0 exactly when halted. *)
Theorem step_cycle_count (s : CPU.t) (n : Z) :
  CPU.outcome (CPU.step s) = Ok n ->
  (CPU.halted s = true /\ n = 0)
  \/ (CPU.halted s = false /\ 1 <= n <= 5
      /\ exists op i,
           Memory.read (CPU.memory s) (CPU._pc s) = Ok op
           /\ CPU.instructions !! op = Some i
           /\ n = CPU.cycles i).
Proof.
  intros Hn. destruct (CPU.halted s) eqn:Hrun.
  - left. rewrite step_halted in Hn by done. cbn in Hn. by injection Hn as <-.
  - right. destruct (step_returns s n Hrun Hn) as (op & i & Hop & Hi & -> & _).
    split; [done|]. split; [|by exists op, i].
    pose proof table_cycles as Ht. rewrite Forall_forall in Ht.
    apply elem_of_list_to_map_2 in Hi. by destruct (Ht _ Hi) as (? & _).
Qed.

Lemma step_cycle_count_witness :
  CPU.outcome (CPU.step (setup_cpu_with_instructions [0x08; 0x00; 0xC0] 0x0100)) = Ok 5
  /\ 1 <= 5 <= 5.
Proof.
  assert (H : CPU.outcome (CPU.step (setup_cpu_with_instructions [0x08; 0x00; 0xC0] 0x0100))
              = Ok 5) by (vm_compute; reflexivity).
  split; [exact H|].
  destruct (step_cycle_count _ 5 H) as [(Hh & _)|(_ & Hr & _)]; [|exact Hr].
  vm_compute in Hh. discriminate.
Defined.

Section ProgramCounter.
Import CPU.
Implicit Types (s : CPU.t) (k : Z).

Lemma pc_moved_refl s : pc_moved 0 s s.
Proof. unfold pc_moved. by rewrite Z.add_0_r. Qed.

Lemma pc_moved_trans j k s s1 s2 :
  pc_moved j s s1 -> pc_moved k s1 s2 -> pc_moved (j + k) s s2.
Proof.
  unfold pc_moved. change (2 ^ 16) with 65536. intros H1 H2.
  Z.div_mod_to_equations. lia.
Qed.

Lemma moves_ret {A} (x : A) : moves_pc 0 (mret x).
Proof. intros s. apply pc_moved_refl. Qed.

Lemma moves_gets {A} (g : t -> A) : moves_pc 0 (gets g).
Proof. intros s. apply pc_moved_refl. Qed.

Lemma moves_modify (g : t -> t) :
  (forall s, _pc (g s) = _pc s) -> moves_pc 0 (modify g).
Proof. intros Hg s. unfold pc_moved. cbn. by rewrite Hg, Z.add_0_r. Qed.

Lemma moves_mem_getitem address : moves_pc 0 (mem_getitem address).
Proof.
  intros s. unfold mem_getitem. cbn.
  destruct (Memory.read _ _); [apply pc_moved_refl | done].
Qed.

Lemma moves_mem_setitem address value : moves_pc 0 (mem_setitem address value).
Proof.
  intros s. unfold mem_setitem.
  destruct (Memory.write _ _ _); cbn; [|done].
  unfold pc_moved. cbn. by rewrite Z.add_0_r.
Qed.

Lemma moves_bind {A B} k (m : M A) (g : A -> M B) :
  moves_pc 0 m -> (forall x, moves_pc k (g x)) -> moves_pc k (m ≫= g).
Proof.
  intros Hm Hg s. specialize (Hm s). unfold mbind, M_bind.
  destruct (m s) as [[x|err] s1 t1]; cbn in *; [|done].
  specialize (Hg x s1). destruct (g x s1) as [[y|err] s2 t2]; cbn in *; [|done].
  by apply (pc_moved_trans 0 k s s1 s2).
Qed.

(** [self.pc += k]. *)
Lemma moves_pc_add k : moves_pc k (p ← pc; set_pc (p + k)).
Proof.
  intros s. unfold pc_moved. run_cpu. rewrite land_16_mod. apply Z.mod_mod. lia.
Qed.

Lemma moves_set_flags z n h c : moves_pc 0 (_set_flags z n h c).
Proof. unfold _set_flags. cbv zeta. by apply moves_modify. Qed.

Ltac moves :=
  cbv beta zeta delta
    [sp set_sp a set_a f set_f b set_b c set_c d set_d e set_e
     h set_h l set_l af set_af bc set_bc de set_de hl set_hl];
  repeat match goal with
    | |- moves_pc _ (mbind (fun p => set_pc (p + _)) pc) => apply moves_pc_add
    | |- moves_pc _ (mbind _ _) => apply moves_bind; [|intros ?]
    | |- moves_pc _ (mret _) => apply moves_ret
    | |- moves_pc _ pc => apply moves_gets
    | |- moves_pc _ (gets _) => apply moves_gets
    | |- moves_pc _ (mem_getitem _) => apply moves_mem_getitem
    | |- moves_pc _ (mem_setitem _ _) => apply moves_mem_setitem
    | |- moves_pc _ (_set_flags _ _ _ _) => apply moves_set_flags
    | |- moves_pc _ (modify _) => apply moves_modify; intros ?; reflexivity
    end.

(** Every handler but the jumps and LD D,d8 moves PC over its operands:
    by the declared length less the opcode byte. *)
Lemma table_moves_pc :
  Forall (fun entry => ~ jumps entry.1 -> entry.1 <> 0x16 ->
                       moves_pc (length entry.2 - 1) (handler entry.2))
         build_instruction_table.
Proof.
  unfold build_instruction_table.
  repeat (apply Forall_cons; split;
          [cbn; intros Hj H16;
           first [ solve [ match goal with |- moves_pc _ ?m => unfold m end; moves ]
                 | exfalso; apply Hj; unfold jumps; lia
                 | exfalso; by apply H16 ]
          |]).
  apply Forall_nil_2.
Qed.

Lemma LD_D_d8_moves_pc : moves_pc 0 instr_LD_D_d8.
Proof. unfold instr_LD_D_d8. moves. Qed.

End ProgramCounter.

(** X17.  Declared lengths.  When a running [step] returns, the fetched
    opcode has a table entry, and unless it is a jump (0x18, 0xC3) PC has
    moved by the entry's declared length modulo 2^16, with one exception:
    for 0x16 (LD D,d8, declared length 2) it has moved by 1. *)
Theorem step_moves_pc_by_length (s : CPU.t) (n : Z) :
  CPU.halted s = false ->
  CPU.outcome (CPU.step s) = Ok n ->
  exists op i,
    Memory.read (CPU.memory s) (CPU._pc s) = Ok op
    /\ CPU.instructions !! op = Some i
    /\ (~ jumps op -> op <> 0x16 ->
        pc_moved (CPU.length i) s (CPU.final (CPU.step s)))
    /\ (op = 0x16 ->
        CPU.length i = 2 /\ pc_moved 1 s (CPU.final (CPU.step s))).
Proof.
  intros Hrun Hn.
  destruct (step_returns s n Hrun Hn) as (op & i & Hop & Hi & _ & Hok & ->).
  exists op, i. split; [done|]. split; [done|].
  assert (H1 : pc_moved 1 s (CPU.with_pc s (Z.land (CPU._pc s + 1) 0xFFFF))).
  { unfold pc_moved. run_cpu. rewrite land_16_mod. apply Z.mod_mod. lia. }
  split.
  - intros Hj H16.
    pose proof table_moves_pc as Ht. rewrite Forall_forall in Ht.
    pose proof (elem_of_list_to_map_2 _ _ _ Hi) as Hin.
    specialize (Ht _ Hin Hj H16 (CPU.with_pc s (Z.land (CPU._pc s + 1) 0xFFFF))).
    cbn [fst snd] in Ht. rewrite Hok in Ht.
    replace (CPU.length i) with (1 + (CPU.length i - 1)) by lia.
    by eapply pc_moved_trans.
  - intros ->. rewrite lookup_LD_D_d8 in Hi. injection Hi as <-.
    split; [reflexivity|].
    pose proof (LD_D_d8_moves_pc (CPU.with_pc s (Z.land (CPU._pc s + 1) 0xFFFF))) as Hd.
    cbn [CPU.handler] in Hok. rewrite Hok in Hd.
    by apply (pc_moved_trans 1 0 s _ _ H1).
Qed.

Lemma step_moves_pc_by_length_witness :
  let s := setup_cpu_with_instructions [0x01; 0x39; 0x30] 0x0100 in
  CPU.outcome (CPU.step s) = Ok 3
  /\ pc_moved 3 s (CPU.final (CPU.step s)).
Proof.
  intros s.
  assert (H : CPU.outcome (CPU.step s) = Ok 3) by (vm_compute; reflexivity).
  split; [exact H|].
  destruct (step_moves_pc_by_length s 3 eq_refl H) as (op & i & Hop & Hi & Hlen & _).
  assert (Hop' : Memory.read (CPU.memory s) (CPU._pc s) = Ok 0x01)
    by (vm_compute; reflexivity).
  rewrite Hop' in Hop. injection Hop as <-.
  assert (Hi' : CPU.instructions !! 0x01
                = Some (CPU.mkInstruction "LD BC, d16" 0x01 3 3 CPU.instr_LD_BC_d16))
    by reflexivity.
  rewrite Hi' in Hi. injection Hi as <-.
  apply Hlen; [unfold jumps; lia | lia].
Defined.

(** * Arithmetic of the instructions *)

Section Bytes.
Implicit Types (hi lo v w : Z).

(** A property that holds of each of the 256 bytes holds of every byte. *)
Lemma forall_bytes (P : Z -> bool) :
  forallb P all_bytes = true -> forall x, 0 <= x <= 255 -> P x = true.
Proof.
  intros H x Hx. rewrite forallb_forall in H. apply H.
  unfold all_bytes. apply in_map_iff. exists (Z.to_nat x).
  split; [lia|]. apply in_seq. lia.
Qed.

Lemma byte_high_bits lo k : 0 <= lo <= 255 -> 8 <= k -> Z.testbit lo k = false.
Proof.
  intros Hlo Hk. destruct (decide (lo = 0)) as [->|Hne]; [apply Z.bits_0|].
  apply Z.bits_above_log2; [lia|].
  assert (Z.log2 lo < 8); [|lia]. apply Z.log2_lt_pow2; lia.
Qed.

(** [hi << 8 | lo] is [hi * 256 + lo] when [lo] is a byte. *)
Lemma pack_pair hi lo :
  0 <= lo <= 255 -> Z.lor (Z.shiftl hi 8) lo = pair_value hi lo.
Proof.
  intros Hlo. unfold pair_value.
  assert (Hdisjoint : Z.land (Z.shiftl hi 8) lo = 0).
  { apply Z.bits_inj'. intros k Hk. rewrite Z.land_spec, Z.bits_0.
    destruct (decide (k < 8)).
    - by rewrite Z.shiftl_spec_low by lia.
    - rewrite (byte_high_bits lo k) by lia. apply andb_false_r. }
  rewrite <- Z.lxor_lor by done. rewrite <- Z.add_nocarry_lxor by done.
  by rewrite Z.shiftl_mul_pow2 by lia.
Qed.

Lemma unpack_hi v : Z.land (Z.shiftr (Z.land v 0xFFFF) 8) 0xFF = v mod 2 ^ 16 / 256.
Proof.
  rewrite land_16_mod, Z.shiftr_div_pow2 by lia.
  change 0xFF with (Z.ones 8). rewrite Z.land_ones by lia.
  change (2 ^ 8) with 256. change (2 ^ 16) with 65536.
  Z.div_mod_to_equations. lia.
Qed.

Lemma unpack_lo v : Z.land (Z.land v 0xFFFF) 0xFF = v mod 2 ^ 16 mod 256.
Proof.
  rewrite land_16_mod. change 0xFF with (Z.ones 8). by rewrite Z.land_ones by lia.
Qed.

Lemma land_255_mod v : Z.land v 0xFF = v mod 256.
Proof. change 0xFF with (Z.ones 8). by rewrite Z.land_ones by lia. Qed.

Lemma pair_of_halves w :
  pair_value (w mod 2 ^ 16 / 256) (w mod 2 ^ 16 mod 256) = w mod 2 ^ 16.
Proof.
  unfold pair_value. change (2 ^ 16) with 65536. Z.div_mod_to_equations. lia.
Qed.

Lemma halves_of_pair hi lo :
  0 <= hi <= 255 -> 0 <= lo <= 255 ->
  pair_value hi lo mod 2 ^ 16 / 256 = hi /\ pair_value hi lo mod 2 ^ 16 mod 256 = lo.
Proof.
  intros Hhi Hlo. unfold pair_value. change (2 ^ 16) with 65536.
  Z.div_mod_to_equations. lia.
Qed.

End Bytes.

Section Pairs.
Import CPU.
Implicit Types (s : CPU.t) (value : Z).

Lemma set_bc_fields s value :
  final (set_bc value s)
  = with_c (with_b s (value mod 2 ^ 16 / 256)) (value mod 2 ^ 16 mod 256).
Proof.
  run_cpu. rewrite land_mask_idem, unpack_hi, unpack_lo. reflexivity.
Qed.

Lemma set_de_fields s value :
  final (set_de value s)
  = with_e (with_d s (value mod 2 ^ 16 / 256)) (value mod 2 ^ 16 mod 256).
Proof.
  run_cpu. rewrite land_mask_idem, unpack_hi, unpack_lo. reflexivity.
Qed.

Lemma set_hl_fields s value :
  final (set_hl value s)
  = with_l (with_h s (value mod 2 ^ 16 / 256)) (value mod 2 ^ 16 mod 256).
Proof.
  run_cpu. rewrite land_mask_idem, unpack_hi, unpack_lo. reflexivity.
Qed.

Lemma mod_256_byte x : 0 <= x mod 256 <= 255.
Proof. pose proof (Z.mod_pos_bound x 256). lia. Qed.

End Pairs.

(** X18.  Register pairs.  Setting BC, DE or HL to [value] and reading the
    pair back gives [value mod 2^16], with the high byte in the first
    register and the low byte in the second.  Setting AF stores the high
    byte in A and only the upper nibble of the low byte in F.  And on
    registers that hold bytes, reading a pair and setting it again changes
    nothing. *)
Theorem register_pair_round_trip (s : CPU.t) (value : Z) :
  (CPU.outcome (CPU.bc (CPU.final (CPU.set_bc value s))) = Ok (value mod 2 ^ 16)
   /\ CPU._b (CPU.final (CPU.set_bc value s)) = value mod 2 ^ 16 / 256
   /\ CPU._c (CPU.final (CPU.set_bc value s)) = value mod 2 ^ 16 mod 256)
  /\ (CPU.outcome (CPU.de (CPU.final (CPU.set_de value s))) = Ok (value mod 2 ^ 16)
      /\ CPU._d (CPU.final (CPU.set_de value s)) = value mod 2 ^ 16 / 256
      /\ CPU._e (CPU.final (CPU.set_de value s)) = value mod 2 ^ 16 mod 256)
  /\ (CPU.outcome (CPU.hl (CPU.final (CPU.set_hl value s))) = Ok (value mod 2 ^ 16)
      /\ CPU._h (CPU.final (CPU.set_hl value s)) = value mod 2 ^ 16 / 256
      /\ CPU._l (CPU.final (CPU.set_hl value s)) = value mod 2 ^ 16 mod 256)
  /\ (CPU._a (CPU.final (CPU.set_af value s)) = value mod 2 ^ 16 / 256
      /\ CPU._f (CPU.final (CPU.set_af value s)) = Z.land value 0xF0
      /\ CPU.outcome (CPU.af (CPU.final (CPU.set_af value s)))
         = Ok (pair_value (value mod 2 ^ 16 / 256) (Z.land value 0xF0)))
  /\ (regs_in_range s ->
      forall x y z,
        CPU.outcome (CPU.bc s) = Ok x -> CPU.outcome (CPU.de s) = Ok y ->
        CPU.outcome (CPU.hl s) = Ok z ->
        x = pair_value (CPU._b s) (CPU._c s)
        /\ y = pair_value (CPU._d s) (CPU._e s)
        /\ z = pair_value (CPU._h s) (CPU._l s)
        /\ CPU.final (CPU.set_bc x s) = s
        /\ CPU.final (CPU.set_de y s) = s
        /\ CPU.final (CPU.set_hl z s) = s).
Proof.
  split; [|split; [|split; [|split]]].
  - rewrite set_bc_fields. run_cpu.
    rewrite pack_pair by apply mod_256_byte. by rewrite pair_of_halves.
  - rewrite set_de_fields. run_cpu.
    rewrite pack_pair by apply mod_256_byte. by rewrite pair_of_halves.
  - rewrite set_hl_fields. run_cpu.
    rewrite pack_pair by apply mod_256_byte. by rewrite pair_of_halves.
  - run_cpu. rewrite unpack_hi.
    assert (Hf : Z.land (Z.land (Z.land value 0xFFFF) 0xF0) 0xF0 = Z.land value 0xF0).
    { rewrite land_mask_idem, <- Z.land_assoc. reflexivity. }
    rewrite Hf. repeat split.
    rewrite pack_pair; [done|].
    pose proof (masked_range (Z.land value 0xF0) (land_mask_idem _ _)). lia.
  - intros [] x y z Hx Hy Hz.
    change (Ok (Z.lor (Z.shiftl (CPU._b s) 8) (CPU._c s)) = Ok x) in Hx.
    change (Ok (Z.lor (Z.shiftl (CPU._d s) 8) (CPU._e s)) = Ok y) in Hy.
    change (Ok (Z.lor (Z.shiftl (CPU._h s) 8) (CPU._l s)) = Ok z) in Hz.
    injection Hx as <-. injection Hy as <-. injection Hz as <-.
    rewrite !pack_pair by done.
    split; [done|]. split; [done|]. split; [done|].
    rewrite set_bc_fields, set_de_fields, set_hl_fields.
    destruct (halves_of_pair (CPU._b s) (CPU._c s)) as [-> ->]; [done..|].
    destruct (halves_of_pair (CPU._d s) (CPU._e s)) as [-> ->]; [done..|].
    destruct (halves_of_pair (CPU._h s) (CPU._l s)) as [-> ->]; [done..|].
    by destruct s.
Qed.

Lemma register_pair_round_trip_witness :
  let s := CPU.final (CPU.set_bc 0x13039 (setup_cpu_with_instructions [] 0x0100)) in
  CPU._b s = 0x30 /\ CPU._c s = 0x39
  /\ CPU.outcome (CPU.bc s) = Ok 0x3039
  /\ CPU.final (CPU.set_bc 0x3039 s) = s.
Proof.
  intros s.
  assert (Hs : regs_in_range s) by (split; vm_compute; split; discriminate).
  destruct (register_pair_round_trip s 0) as (_ & _ & _ & _ & Hback).
  destruct (Hback Hs 0x3039 0 0) as (_ & _ & _ & Hbc & _);
    try (vm_compute; reflexivity).
  split; [vm_compute; reflexivity|]. split; [vm_compute; reflexivity|].
  split; [vm_compute; reflexivity|]. exact Hbc.
Defined.

Section Rotates.
Import CPU.
Implicit Types (s : CPU.t).

(** All 256 values of A against all 256 values of F, the masked ones
    being the ones that count. *)
Lemma rotate_check_all :
  forallb (fun a => forallb (fun f => implb (Z.land f 0xF0 =? f) (rotate_check a f))
                            all_bytes) all_bytes = true.
Proof. vm_compute. reflexivity. Qed.

Lemma rotate_check_holds a f :
  0 <= a <= 255 -> Z.land f 0xF0 = f -> rotate_check a f = true.
Proof.
  intros Ha Hf.
  pose proof (forall_bytes _ rotate_check_all a Ha) as H. cbv beta in H.
  pose proof (masked_range f Hf) as Hr.
  assert (Hbyte : 0 <= f <= 255) by lia.
  pose proof (forall_bytes _ H f Hbyte) as H'. cbv beta in H'.
  apply Z.eqb_eq in Hf. by rewrite Hf in H'.
Qed.

(** The rotates depend on A and F only. *)
Lemma rotate_on_probe s :
  (_a (final (instr_RLCA s)) = _a (final (instr_RLCA (probe (_a s) (_f s))))
   /\ _f (final (instr_RLCA s)) = _f (final (instr_RLCA (probe (_a s) (_f s)))))
  /\ (_a (final (instr_RRCA s)) = _a (final (instr_RRCA (probe (_a s) (_f s))))
      /\ _f (final (instr_RRCA s)) = _f (final (instr_RRCA (probe (_a s) (_f s)))))
  /\ (_a (final (instr_RLA s)) = _a (final (instr_RLA (probe (_a s) (_f s))))
      /\ _f (final (instr_RLA s)) = _f (final (instr_RLA (probe (_a s) (_f s)))))
  /\ _a (final (instr_RRCA (final (instr_RLCA s))))
     = _a (final (instr_RRCA (final (instr_RLCA (probe (_a s) (_f s))))))
  /\ _a (final (instr_RLCA (final (instr_RRCA s))))
     = _a (final (instr_RLCA (final (instr_RRCA (probe (_a s) (_f s)))))).
Proof. repeat split; reflexivity. Qed.

End Rotates.

(** X19.  The rotates of A.  With a byte [a] in A and a masked F: RLCA
    leaves [2a mod 256 + a / 128] in A, RRCA leaves [a / 2 + 128 (a mod
    2)], and RLA leaves [2a mod 256] plus the old carry; each clears Z, N
    and H and sets C to the bit rotated out, so F ends as 0x10 or 0x00.
    RRCA after RLCA, and RLCA after RRCA, give A back. *)
Theorem rotate_results (s : CPU.t) :
  0 <= CPU._a s <= 255 ->
  F_masked s ->
  let a := CPU._a s in
  (CPU._a (CPU.final (CPU.instr_RLCA s)) = (2 * a) mod 256 + a / 128
   /\ CPU._f (CPU.final (CPU.instr_RLCA s)) = 16 * (a / 128))
  /\ (CPU._a (CPU.final (CPU.instr_RRCA s)) = a / 2 + 128 * (a mod 2)
      /\ CPU._f (CPU.final (CPU.instr_RRCA s)) = 16 * (a mod 2))
  /\ (CPU._a (CPU.final (CPU.instr_RLA s)) = (2 * a) mod 256 + (CPU._f s / 16) mod 2
      /\ CPU._f (CPU.final (CPU.instr_RLA s)) = 16 * (a / 128))
  /\ CPU._a (CPU.final (CPU.instr_RRCA (CPU.final (CPU.instr_RLCA s)))) = a
  /\ CPU._a (CPU.final (CPU.instr_RLCA (CPU.final (CPU.instr_RRCA s)))) = a.
Proof.
  intros Ha Hf a.
  pose proof (rotate_check_holds a (CPU._f s) Ha Hf) as H.
  unfold rotate_check in H. cbv zeta in H.
  repeat (apply andb_prop in H as [H ?]).
  repeat match goal with E : (_ =? _) = true |- _ => apply Z.eqb_eq in E end.
  destruct (rotate_on_probe s) as ((-> & ->) & (-> & ->) & (-> & ->) & -> & ->).
  subst a. done.
Qed.

Lemma rotate_results_witness :
  let s := CPU.final (CPU.set_a 0x80 (setup_cpu_with_instructions [0x07] 0x0100)) in
  CPU._a (CPU.final (CPU.instr_RLCA s)) = 0x01
  /\ CPU._f (CPU.final (CPU.instr_RLCA s)) = 0x10
  /\ CPU._a (CPU.final (CPU.instr_RRCA (CPU.final (CPU.instr_RLCA s)))) = 0x80.
Proof.
  intros s.
  destruct (rotate_results s) as ((Ha & Hf) & _ & _ & Hback & _).
  - vm_compute. split; discriminate.
  - reflexivity.
  - split; [exact Ha|]. split; [exact Hf | exact Hback].
Defined.

Section AddHL.
Import CPU.
Implicit Types (s : CPU.t).

Lemma land_4095_mod x : Z.land x 0x0FFF = x mod 4096.
Proof. change 0x0FFF with (Z.ones 12). by rewrite Z.land_ones by lia. Qed.

(** ADD HL,BC as one store to HL followed by one call of [_set_flags]. *)
Lemma ADD_HL_BC_unfold s :
  let old_hl := Z.lor (Z.shiftl (_h s) 8) (_l s) in
  let x := Z.lor (Z.shiftl (_b s) 8) (_c s) in
  final (instr_ADD_HL_BC s)
  = final (_set_flags None (Some false)
             (Some (bool_decide (Z.land old_hl 0x0FFF + Z.land x 0x0FFF > 0x0FFF)))
             (Some (bool_decide (old_hl + x > 0xFFFF)))
             (final (set_hl (old_hl + x) s))).
Proof. reflexivity. Qed.

Lemma ADD_HL_DE_unfold s :
  let old_hl := Z.lor (Z.shiftl (_h s) 8) (_l s) in
  let x := Z.lor (Z.shiftl (_d s) 8) (_e s) in
  final (instr_ADD_HL_DE s)
  = final (_set_flags None (Some false)
             (Some (bool_decide (Z.land old_hl 0x0FFF + Z.land x 0x0FFF > 0x0FFF)))
             (Some (bool_decide (old_hl + x > 0xFFFF)))
             (final (set_hl (old_hl + x) s))).
Proof. reflexivity. Qed.

(** What [_set_flags] leaves alone. *)
Lemma set_flags_other z n h c s :
  final (_set_flags z n h c s) = with_f s (_f (final (_set_flags z n h c s))).
Proof. by destruct z, n, h, c. Qed.

End AddHL.

(** X20.  ADD HL,rr.  On registers that hold bytes, ADD HL,BC leaves
    [(HL + BC) mod 2^16] in HL, sets C when the sum exceeds 0xFFFF and H
    when the sum of the low 12 bits exceeds 0x0FFF, clears N and keeps Z;
    B and C are unchanged.  ADD HL,DE does the same with DE. *)
Theorem add_hl_results (s : CPU.t) :
  regs_in_range s ->
  let hl := pair_value (CPU._h s) (CPU._l s) in
  (let rr := pair_value (CPU._b s) (CPU._c s) in
   let s' := CPU.final (CPU.instr_ADD_HL_BC s) in
   pair_value (CPU._h s') (CPU._l s') = (hl + rr) mod 2 ^ 16
   /\ Z.testbit (CPU._f s') 4 = bool_decide (hl + rr > 0xFFFF)
   /\ Z.testbit (CPU._f s') 5 = bool_decide (hl mod 4096 + rr mod 4096 > 0x0FFF)
   /\ Z.testbit (CPU._f s') 6 = false
   /\ Z.testbit (CPU._f s') 7 = Z.testbit (CPU._f s) 7
   /\ CPU._b s' = CPU._b s /\ CPU._c s' = CPU._c s)
  /\ (let rr := pair_value (CPU._d s) (CPU._e s) in
      let s' := CPU.final (CPU.instr_ADD_HL_DE s) in
      pair_value (CPU._h s') (CPU._l s') = (hl + rr) mod 2 ^ 16
      /\ Z.testbit (CPU._f s') 4 = bool_decide (hl + rr > 0xFFFF)
      /\ Z.testbit (CPU._f s') 5 = bool_decide (hl mod 4096 + rr mod 4096 > 0x0FFF)
      /\ Z.testbit (CPU._f s') 6 = false
      /\ Z.testbit (CPU._f s') 7 = Z.testbit (CPU._f s) 7
      /\ CPU._d s' = CPU._d s /\ CPU._e s' = CPU._e s).
Proof.
  intros [] hl. split.
  - intros rr s'. subst s'. rewrite ADD_HL_BC_unfold. cbv zeta.
    match goal with |- context [CPU._set_flags ?z ?n ?h ?c ?s1] =>
      destruct (set_flags_bits z n h c s1) as (Hz & Hn & Hh & Hc);
      rewrite (set_flags_other z n h c s1);
      cbn [CPU._h CPU._l CPU._b CPU._c CPU._f CPU.with_f];
      rewrite Hz, Hn, Hh, Hc
    end.
    rewrite set_hl_fields, !land_4095_mod, !pack_pair by done.
    cbn [CPU._h CPU._l CPU._b CPU._c CPU._f CPU.with_f CPU.with_h CPU.with_l
         from_option id].
    by rewrite pair_of_halves.
  - intros rr s'. subst s'. rewrite ADD_HL_DE_unfold. cbv zeta.
    match goal with |- context [CPU._set_flags ?z ?n ?h ?c ?s1] =>
      destruct (set_flags_bits z n h c s1) as (Hz & Hn & Hh & Hc);
      rewrite (set_flags_other z n h c s1);
      cbn [CPU._h CPU._l CPU._d CPU._e CPU._f CPU.with_f];
      rewrite Hz, Hn, Hh, Hc
    end.
    rewrite set_hl_fields, !land_4095_mod, !pack_pair by done.
    cbn [CPU._h CPU._l CPU._d CPU._e CPU._f CPU.with_f CPU.with_h CPU.with_l
         from_option id].
    by rewrite pair_of_halves.
Qed.

(** HL = 0xC000 plus BC = 0x8000: HL = 0x4000 with C set and H clear. *)
Lemma add_hl_results_witness :
  let s := CPU.final (CPU.set_bc 0x8000
             (CPU.final (CPU.set_hl 0xC000 (setup_cpu_with_instructions [0x09] 0x0100)))) in
  let s' := CPU.final (CPU.instr_ADD_HL_BC s) in
  pair_value (CPU._h s') (CPU._l s') = 0x4000
  /\ Z.testbit (CPU._f s') 4 = true
  /\ Z.testbit (CPU._f s') 5 = false.
Proof.
  intros s s'.
  assert (Hs : regs_in_range s) by (split; vm_compute; split; discriminate).
  destruct (add_hl_results s Hs) as ((Hhl & Hc & Hh & _) & _).
  split; [exact Hhl|]. split; [exact Hc | exact Hh].
Defined.

Section IncDecInverse.
Import CPU.
Implicit Types (s : CPU.t).

Lemma INC_BC_unfold s :
  final (instr_INC_BC s) = final (set_bc (Z.lor (Z.shiftl (_b s) 8) (_c s) + 1) s).
Proof. reflexivity. Qed.

Lemma DEC_BC_unfold s :
  final (instr_DEC_BC s) = final (set_bc (Z.lor (Z.shiftl (_b s) 8) (_c s) - 1) s).
Proof. reflexivity. Qed.

Lemma INC_DE_unfold s :
  final (instr_INC_DE s) = final (set_de (Z.lor (Z.shiftl (_d s) 8) (_e s) + 1) s).
Proof. reflexivity. Qed.

Lemma DEC_DE_unfold s :
  final (instr_DEC_DE s) = final (set_de (Z.lor (Z.shiftl (_d s) 8) (_e s) - 1) s).
Proof. reflexivity. Qed.

(** The halves of a 16-bit sum or difference, and going there and back. *)
Lemma halves_there_and_back hi lo k :
  0 <= hi <= 255 -> 0 <= lo <= 255 -> -1 <= k <= 1 ->
  let w := (pair_value hi lo + k) mod 2 ^ 16 in
  0 <= w / 256 <= 255 /\ 0 <= w mod 256 <= 255
  /\ pair_value (w / 256) (w mod 256) = w
  /\ (pair_value (w / 256) (w mod 256) - k) mod 2 ^ 16 / 256 = hi
  /\ (pair_value (w / 256) (w mod 256) - k) mod 2 ^ 16 mod 256 = lo.
Proof.
  intros Hhi Hlo Hk. unfold pair_value. cbv zeta. change (2 ^ 16) with 65536.
  repeat split; Z.div_mod_to_equations; lia.
Qed.

(** Moving BC by [k] and back by [k], for [k] = 1 or -1. *)
Lemma bc_inverse s k :
  0 <= _b s <= 255 -> 0 <= _c s <= 255 -> -1 <= k <= 1 ->
  let s' := final (set_bc (Z.lor (Z.shiftl (_b s) 8) (_c s) + k) s) in
  pair_value (_b s') (_c s') = (pair_value (_b s) (_c s) + k) mod 2 ^ 16
  /\ final (set_bc (Z.lor (Z.shiftl (_b s') 8) (_c s') - k) s') = s.
Proof.
  intros Hb Hc Hk s'.
  destruct (halves_there_and_back (_b s) (_c s) k Hb Hc Hk) as (Hhi & Hlo & E1 & E2 & E3).
  assert (Hs' : s' = with_c (with_b s ((pair_value (_b s) (_c s) + k) mod 2 ^ 16 / 256))
                            ((pair_value (_b s) (_c s) + k) mod 2 ^ 16 mod 256)).
  { subst s'. by rewrite set_bc_fields, pack_pair. }
  rewrite Hs'. cbn [_b _c with_b with_c]. split; [exact E1|].
  rewrite set_bc_fields, pack_pair by done. rewrite E2, E3. by destruct s.
Qed.

Lemma de_inverse s k :
  0 <= _d s <= 255 -> 0 <= _e s <= 255 -> -1 <= k <= 1 ->
  let s' := final (set_de (Z.lor (Z.shiftl (_d s) 8) (_e s) + k) s) in
  pair_value (_d s') (_e s') = (pair_value (_d s) (_e s) + k) mod 2 ^ 16
  /\ final (set_de (Z.lor (Z.shiftl (_d s') 8) (_e s') - k) s') = s.
Proof.
  intros Hd He Hk s'.
  destruct (halves_there_and_back (_d s) (_e s) k Hd He Hk) as (Hhi & Hlo & E1 & E2 & E3).
  assert (Hs' : s' = with_e (with_d s ((pair_value (_d s) (_e s) + k) mod 2 ^ 16 / 256))
                            ((pair_value (_d s) (_e s) + k) mod 2 ^ 16 mod 256)).
  { subst s'. by rewrite set_de_fields, pack_pair. }
  rewrite Hs'. cbn [_d _e with_d with_e]. split; [exact E1|].
  rewrite set_de_fields, pack_pair by done. rewrite E2, E3. by destruct s.
Qed.

End IncDecInverse.

(** X21.  16-bit INC and DEC.  On registers that hold bytes, INC BC leaves
    [(BC + 1) mod 2^16] in BC and DEC BC leaves [(BC - 1) mod 2^16], so
    0xFFFF wraps to 0x0000 and back; nothing else changes, flags included,
    and DEC BC after INC BC, or INC BC after DEC BC, gives back the CPU
    exactly as it was.  The same holds for DE. *)
Theorem inc_dec_16_wrap_and_inverse (s : CPU.t) :
  regs_in_range s ->
  (let s' := CPU.final (CPU.instr_INC_BC s) in
   pair_value (CPU._b s') (CPU._c s')
   = (pair_value (CPU._b s) (CPU._c s) + 1) mod 2 ^ 16
   /\ CPU.final (CPU.instr_DEC_BC s') = s)
  /\ (let s' := CPU.final (CPU.instr_DEC_BC s) in
      pair_value (CPU._b s') (CPU._c s')
      = (pair_value (CPU._b s) (CPU._c s) - 1) mod 2 ^ 16
      /\ CPU.final (CPU.instr_INC_BC s') = s)
  /\ (let s' := CPU.final (CPU.instr_INC_DE s) in
      pair_value (CPU._d s') (CPU._e s')
      = (pair_value (CPU._d s) (CPU._e s) + 1) mod 2 ^ 16
      /\ CPU.final (CPU.instr_DEC_DE s') = s)
  /\ (let s' := CPU.final (CPU.instr_DEC_DE s) in
      pair_value (CPU._d s') (CPU._e s')
      = (pair_value (CPU._d s) (CPU._e s) - 1) mod 2 ^ 16
      /\ CPU.final (CPU.instr_INC_DE s') = s).
Proof.
  intros [].
  destruct (bc_inverse s 1) as (E1 & E2); [done|done|lia|].
  destruct (bc_inverse s (-1)) as (F1 & F2); [done|done|lia|].
  destruct (de_inverse s 1) as (G1 & G2); [done|done|lia|].
  destruct (de_inverse s (-1)) as (K1 & K2); [done|done|lia|].
  cbv zeta.
  rewrite INC_BC_unfold, DEC_BC_unfold, INC_DE_unfold, DEC_DE_unfold.
  replace (Z.lor (Z.shiftl (CPU._b s) 8) (CPU._c s) - 1)
    with (Z.lor (Z.shiftl (CPU._b s) 8) (CPU._c s) + -1) by lia.
  replace (Z.lor (Z.shiftl (CPU._d s) 8) (CPU._e s) - 1)
    with (Z.lor (Z.shiftl (CPU._d s) 8) (CPU._e s) + -1) by lia.
  repeat split; assumption.
Qed.

Lemma inc_dec_16_wrap_and_inverse_witness :
  let s := CPU.final (CPU.set_bc 0xFFFF (setup_cpu_with_instructions [0x03; 0x0B] 0x0100)) in
  let s' := CPU.final (CPU.instr_INC_BC s) in
  pair_value (CPU._b s') (CPU._c s') = 0x0000
  /\ CPU.final (CPU.instr_DEC_BC s') = s.
Proof.
  intros s s'.
  assert (Hs : regs_in_range s) by (split; vm_compute; split; discriminate).
  destruct (inc_dec_16_wrap_and_inverse s Hs) as ((Hinc & Hback) & _).
  split; [exact Hinc | exact Hback].
Defined.

Section Dispatch.
Import CPU.
Implicit Types (s : CPU.t).

(** A running [step] on an opcode of the table: the fetch, then the
    handler on the CPU with PC past the opcode, then the cycles of the
    entry. *)
Lemma step_dispatch s op i :
  halted s = false ->
  Memory.read (memory s) (_pc s) = Ok op ->
  instructions !! op = Some i ->
  step s
  = match handler i (with_pc s (Z.land (_pc s + 1) 0xFFFF)) with
    | Run (Ok _) s' t => Run (Ok (cycles i)) s' (BusRead (_pc s) :: t ++ [])
    | Run (Raise err) s' t => Run (Raise err) s' (BusRead (_pc s) :: t)
    end.
Proof.
  intros Hrun Hop Hi. destruct s as [m pc0 ? ? ? ? ? ? ? ? ? ?].
  cbn [halted memory _pc] in *. subst.
  unfold step. run_cpu. rewrite Hop. run_cpu. rewrite Hi. run_cpu.
  rewrite !land_mask_idem.
  by destruct (handler i _) as [[[]|err] s' t'].
Qed.

Lemma lookup_LD_BC_d16 :
  instructions !! 0x01 = Some (mkInstruction "LD BC, d16" 0x01 3 3 instr_LD_BC_d16).
Proof. reflexivity. Qed.

Lemma lookup_LD_DE_d16 :
  instructions !! 0x11 = Some (mkInstruction "LD DE, d16" 0x11 3 3 instr_LD_DE_d16).
Proof. reflexivity. Qed.

Lemma lookup_LD_HL_d16 :
  instructions !! 0x21 = Some (mkInstruction "LD HL, d16" 0x21 3 3 instr_LD_HL_d16).
Proof. reflexivity. Qed.

Lemma lookup_JP_d16 :
  instructions !! 0xC3 = Some (mkInstruction "JP d16" 0xC3 3 4 instr_JP_d16).
Proof. reflexivity. Qed.

Lemma word_of_bytes lo hi :
  0 <= lo <= 255 -> 0 <= hi <= 255 ->
  Z.lor lo (Z.shiftl hi 8) = pair_value hi lo
  /\ 0 <= pair_value hi lo <= 0xFFFF
  /\ pair_value hi lo mod 2 ^ 16 / 256 = hi
  /\ pair_value hi lo mod 2 ^ 16 mod 256 = lo.
Proof.
  intros Hlo Hhi. rewrite Z.lor_comm, pack_pair by done.
  destruct (halves_of_pair hi lo Hhi Hlo) as [? ?].
  repeat split; try done; unfold pair_value; lia.
Qed.

End Dispatch.

(** X22.  16-bit immediates are little-endian.  Let the CPU run with a
    3-byte opcode at [PC], the byte [lo] at the next address and the byte
    [hi] after it.  LD BC,d16, LD DE,d16 and LD HL,d16 return 3 cycles with
    [hi] in the first register of the pair and [lo] in the second, and PC
    past the operand; JP d16 returns 4 cycles with [PC = hi * 256 + lo]. *)
Theorem d16_operands_little_endian (s : CPU.t) (op lo hi : Z) :
  CPU.halted s = false ->
  Memory.read (CPU.memory s) (CPU._pc s) = Ok op ->
  Memory.read (CPU.memory s) (Z.land (CPU._pc s + 1) 0xFFFF) = Ok lo ->
  Memory.read (CPU.memory s) (Z.land (CPU._pc s + 1) 0xFFFF + 1) = Ok hi ->
  0 <= lo <= 255 -> 0 <= hi <= 255 ->
  let s' := CPU.final (CPU.step s) in
  let next := Z.land (Z.land (CPU._pc s + 1) 0xFFFF + 2) 0xFFFF in
  (op = 0x01 -> CPU.outcome (CPU.step s) = Ok 3
                /\ CPU._b s' = hi /\ CPU._c s' = lo /\ CPU._pc s' = next)
  /\ (op = 0x11 -> CPU.outcome (CPU.step s) = Ok 3
                   /\ CPU._d s' = hi /\ CPU._e s' = lo /\ CPU._pc s' = next)
  /\ (op = 0x21 -> CPU.outcome (CPU.step s) = Ok 3
                   /\ CPU._h s' = hi /\ CPU._l s' = lo /\ CPU._pc s' = next)
  /\ (op = 0xC3 -> CPU.outcome (CPU.step s) = Ok 4
                   /\ CPU._pc s' = pair_value hi lo).
Proof.
  intros Hrun Hop Hlo Hhi Blo Bhi s' next. subst s' next.
  destruct (word_of_bytes lo hi Blo Bhi) as (Hw & Hrange & Hh & Hl).
  split; [|split; [|split]]; intros ->.
  all: first [ rewrite (step_dispatch s _ _ Hrun Hop lookup_LD_BC_d16)
             | rewrite (step_dispatch s _ _ Hrun Hop lookup_LD_DE_d16)
             | rewrite (step_dispatch s _ _ Hrun Hop lookup_LD_HL_d16)
             | rewrite (step_dispatch s _ _ Hrun Hop lookup_JP_d16) ].
  all: cbn [CPU.handler CPU.cycles];
    unfold CPU.instr_LD_BC_d16, CPU.instr_LD_DE_d16, CPU.instr_LD_HL_d16,
      CPU.instr_JP_d16; run_cpu; rewrite Hlo; run_cpu; rewrite Hhi; run_cpu;
    rewrite ?Hw, ?land_mask_idem, ?unpack_hi, ?unpack_lo, ?Hh, ?Hl;
    rewrite ?land_255_id by done; rewrite ?land_16_small by done;
    done.
Qed.

Lemma d16_operands_little_endian_witness :
  let s := setup_cpu_with_instructions [0xC3; 0x96; 0x00] 0x0100 in
  CPU.outcome (CPU.step s) = Ok 4 /\ CPU._pc (CPU.final (CPU.step s)) = 0x0096.
Proof.
  intros s.
  destruct (d16_operands_little_endian s 0xC3 0x96 0x00) as (_ & _ & _ & Hjp);
    try reflexivity; try lia; try (vm_compute; reflexivity).
  exact (Hjp eq_refl).
Defined.

(** X23.  Operands are fetched without wrapping.  A 3-byte instruction
    whose opcode is at 0xFFFE reads its first operand byte at 0xFFFF (the
    IE byte) and its second at 0x10000, which the bus rejects: [step]
    raises the invalid-address [ValueError] for 0x10000 with PC at 0xFFFF
    and the bus unchanged.  LD BC,d16 has by then loaded C with the IE
    byte; the other four have changed no register. *)
Theorem operand_fetch_past_top (s : CPU.t) (op : Z) :
  CPU.halted s = false ->
  CPU._pc s = 0xFFFE ->
  Memory.read (CPU.memory s) 0xFFFE = Ok op ->
  op = 0x01 \/ op = 0x08 \/ op = 0x11 \/ op = 0x21 \/ op = 0xC3 ->
  CPU.outcome (CPU.step s) = Raise (InvalidAddress 0x10000)
  /\ (op <> 0x01 -> CPU.final (CPU.step s) = CPU.with_pc s 0xFFFF)
  /\ (op = 0x01 ->
      CPU.final (CPU.step s)
      = CPU.with_c (CPU.with_pc s 0xFFFF)
                   (Z.land (Memory.ie_register (CPU.memory s)) 0xFF)).
Proof.
  intros Hrun Hpc Hop Hcase.
  assert (Htop : Memory.read (CPU.memory s) (0xFFFF + 1) = Raise (InvalidAddress 0x10000))
    by (apply read_outside; lia).
  rewrite <- Hpc in Hop.
  destruct Hcase as [-> | [-> | [-> | [-> | ->]]]].
  all: first [ rewrite (step_dispatch s _ _ Hrun Hop lookup_LD_BC_d16)
             | rewrite (step_dispatch s _ _ Hrun Hop lookup_LD_a16_SP)
             | rewrite (step_dispatch s _ _ Hrun Hop lookup_LD_DE_d16)
             | rewrite (step_dispatch s _ _ Hrun Hop lookup_LD_HL_d16)
             | rewrite (step_dispatch s _ _ Hrun Hop lookup_JP_d16) ].
  all: cbn [CPU.handler CPU.cycles]; rewrite Hpc;
    change (Z.land (0xFFFE + 1) 0xFFFF) with 0xFFFF;
    unfold CPU.instr_LD_BC_d16, CPU.instr_LD_a16_SP, CPU.instr_LD_DE_d16,
      CPU.instr_LD_HL_d16, CPU.instr_JP_d16;
    run_cpu; rewrite read_ie; run_cpu; rewrite Htop; run_cpu.
  all: split; [reflexivity|]; split; intros H; try done; try lia.
Qed.

Lemma operand_fetch_past_top_witness :
  let s := CPU.final (CPU.set_pc 0xFFFE (CPU.final (CPU.step
             (CPU.final (CPU.set_bc 0xFFFE (CPU.final (CPU.set_a 0x21
                (setup_cpu_with_instructions [0x02] 0x0100)))))))) in
  Memory.read (CPU.memory s) 0xFFFE = Ok 0x21
  /\ CPU.outcome (CPU.step s) = Raise (InvalidAddress 0x10000).
Proof.
  intros s.
  assert (Hop : Memory.read (CPU.memory s) 0xFFFE = Ok 0x21)
    by (vm_compute; reflexivity).
  split; [exact Hop|].
  apply (operand_fetch_past_top s 0x21); [reflexivity | reflexivity | exact Hop | lia].
Defined.

Section StoreAndLoad.
Import CPU.
Implicit Types (s : CPU.t).

Lemma cell_of_next address : cell_of address <> cell_of (address + 1).
Proof. unfold cell_of. repeat case_decide; lia. Qed.

Lemma word_halves w :
  0 <= w <= 0xFFFF ->
  pair_value (Z.land (Z.shiftr w 8) 0xFF) (Z.land w 0xFF) = w.
Proof.
  intros Hw. rewrite Z.shiftr_div_pow2, !land_255_mod by lia.
  unfold pair_value. change (2 ^ 8) with 256. Z.div_mod_to_equations. lia.
Qed.

End StoreAndLoad.

(** X24.  LD (a16),SP stores SP little-endian.  Let the CPU run with
    opcode 0x08 at [PC] followed by the bytes [lo] and [hi], on a bus with
    the buffer sizes of the constructor, and let [hi * 256 + lo] and the
    address after it be RAM addresses.  Then [step] returns 5 cycles, the
    low byte of SP is read back at the address and the high byte at the
    next one, PC is past the operand, and for an SP of 16 bits the two
    bytes make up SP. *)
Theorem ld_a16_sp_stores_little_endian (s : CPU.t) (lo hi : Z) :
  CPU.halted s = false ->
  sized (CPU.memory s) ->
  Memory.read (CPU.memory s) (CPU._pc s) = Ok 0x08 ->
  Memory.read (CPU.memory s) (Z.land (CPU._pc s + 1) 0xFFFF) = Ok lo ->
  Memory.read (CPU.memory s) (Z.land (CPU._pc s + 1) 0xFFFF + 1) = Ok hi ->
  0 <= lo <= 255 -> 0 <= hi <= 255 ->
  ram_address (pair_value hi lo) ->
  ram_address (pair_value hi lo + 1) ->
  let s' := CPU.final (CPU.step s) in
  CPU.outcome (CPU.step s) = Ok 5
  /\ Memory.read (CPU.memory s') (pair_value hi lo) = Ok (Z.land (CPU._sp s) 0xFF)
  /\ Memory.read (CPU.memory s') (pair_value hi lo + 1)
     = Ok (Z.land (Z.shiftr (CPU._sp s) 8) 0xFF)
  /\ CPU._pc s' = Z.land (Z.land (CPU._pc s + 1) 0xFFFF + 2) 0xFFFF
  /\ (0 <= CPU._sp s <= 0xFFFF ->
      pair_value (Z.land (Z.shiftr (CPU._sp s) 8) 0xFF) (Z.land (CPU._sp s) 0xFF)
      = CPU._sp s).
Proof.
  intros Hrun Hm Hop Hlo Hhi Blo Bhi Hp Hp1 s'. subst s'.
  destruct (word_of_bytes lo hi Blo Bhi) as (Hw & _).
  rewrite (step_LD_a16_SP s lo hi Hrun Hop Hlo Hhi). cbv zeta. rewrite Hw.
  destruct (write_ram_succeeds (CPU.memory s) (pair_value hi lo)
              (Z.land (CPU._sp s) 0xFF) Hm Hp) as (m1 & Hw1 & Hr1).
  destruct (write_keeps_shape _ _ _ _ Hw1) as (Hs1 & _).
  destruct (write_ram_succeeds m1 (pair_value hi lo + 1)
              (Z.land (Z.shiftr (CPU._sp s) 8) 0xFF) (Hs1 Hm) Hp1) as (m2 & Hw2 & Hr2).
  destruct (write_other_cells m1 m2 (pair_value hi lo + 1)
              (Z.land (Z.shiftr (CPU._sp s) 8) 0xFF) (pair_value hi lo) (Hs1 Hm))
    as (Hkeep & _); [unfold ram_address in Hp1; lia | done | apply cell_of_next |].
  run_cpu. rewrite Hw1. run_cpu. rewrite Hw2. run_cpu.
  rewrite Hkeep, Hr1, Hr2, !land_mask_idem.
  repeat split; try done. apply word_halves.
Qed.

Lemma ld_a16_sp_stores_little_endian_witness :
  let s := CPU.final (CPU.set_sp 0x1234
             (setup_cpu_with_instructions [0x08; 0xFF; 0xDF] 0x0100)) in
  let s' := CPU.final (CPU.step s) in
  CPU.outcome (CPU.step s) = Ok 5
  /\ Memory.read (CPU.memory s') 0xDFFF = Ok 0x34
  /\ Memory.read (CPU.memory s') 0xE000 = Ok 0x12
  /\ CPU._pc s' = 0x0103.
Proof.
  intros s s'. subst s'.
  destruct (ld_a16_sp_stores_little_endian s 0xFF 0xDF) as (H1 & H2 & H3 & H4 & _);
    try reflexivity; try lia; try (vm_compute; reflexivity);
    try apply fresh_sized; try (left; vm_compute; split; discriminate).
  split; [exact H1|]. split; [exact H2|]. split; [exact H3 | exact H4].
Defined.

(** X25.  Store A, load A.  On a bus with the buffer sizes of the
    constructor and registers that hold bytes: if BC is a RAM address,
    LD (BC),A succeeds and, whatever A is set to afterwards, LD A,(BC)
    puts the stored value back in A.  The same holds for DE with
    LD (DE),A and LD A,(DE). *)
Theorem store_then_load_accumulator (s : CPU.t) :
  sized (CPU.memory s) ->
  regs_in_range s ->
  (ram_address (pair_value (CPU._b s) (CPU._c s)) ->
   CPU.outcome (CPU.instr_LD_BC_A s) = Ok tt
   /\ forall x,
        let s1 := CPU.with_a (CPU.final (CPU.instr_LD_BC_A s)) x in
        CPU.outcome (CPU.instr_LD_A_BC s1) = Ok tt
        /\ CPU._a (CPU.final (CPU.instr_LD_A_BC s1)) = CPU._a s)
  /\ (ram_address (pair_value (CPU._d s) (CPU._e s)) ->
      CPU.outcome (CPU.instr_LD_DE_A s) = Ok tt
      /\ forall x,
           let s1 := CPU.with_a (CPU.final (CPU.instr_LD_DE_A s)) x in
           CPU.outcome (CPU.instr_LD_A_DE s1) = Ok tt
           /\ CPU._a (CPU.final (CPU.instr_LD_A_DE s1)) = CPU._a s).
Proof.
  intros Hm []. split; intros Hp.
  - destruct (write_ram_succeeds (CPU.memory s) _ (CPU._a s) Hm Hp) as (m1 & Hw & Hr).
    rewrite <- pack_pair in Hw, Hr by done.
    unfold CPU.instr_LD_BC_A, CPU.instr_LD_A_BC. run_cpu. rewrite Hw. run_cpu.
    split; [reflexivity|]. intros x. run_cpu. rewrite Hr. run_cpu.
    split; [reflexivity|]. rewrite land_mask_idem. by apply land_255_id.
  - destruct (write_ram_succeeds (CPU.memory s) _ (CPU._a s) Hm Hp) as (m1 & Hw & Hr).
    rewrite <- pack_pair in Hw, Hr by done.
    unfold CPU.instr_LD_DE_A, CPU.instr_LD_A_DE. run_cpu. rewrite Hw. run_cpu.
    split; [reflexivity|]. intros x. run_cpu. rewrite Hr. run_cpu.
    split; [reflexivity|]. rewrite land_mask_idem. by apply land_255_id.
Qed.

Lemma store_then_load_accumulator_witness :
  let s := CPU.final (CPU.set_bc 0xC000 (CPU.final (CPU.set_a 0xFF
             (setup_cpu_with_instructions [0x02; 0x0A] 0x0100)))) in
  CPU.outcome (CPU.instr_LD_BC_A s) = Ok tt
  /\ CPU._a (CPU.final (CPU.instr_LD_A_BC
               (CPU.with_a (CPU.final (CPU.instr_LD_BC_A s)) 0x00))) = 0xFF.
Proof.
  intros s.
  assert (Hs : regs_in_range s) by (split; vm_compute; split; discriminate).
  destruct (store_then_load_accumulator s (fresh_sized _) Hs) as (Hbc & _).
  destruct Hbc as (Hstore & Hload); [left; vm_compute; split; discriminate|].
  split; [exact Hstore|]. exact (proj2 (Hload 0x00)).
Defined.

Section IncDec8.
Import CPU.
Implicit Types (s : CPU.t).

Lemma byte_there_and_back x :
  0 <= x <= 255 ->
  Z.land (Z.land (x + 1) 0xFF - 1) 0xFF = x
  /\ Z.land (Z.land (x - 1) 0xFF + 1) 0xFF = x.
Proof.
  intros Hx. rewrite !land_255_mod. split; Z.div_mod_to_equations; lia.
Qed.

End IncDec8.

(** X26.  8-bit INC and DEC undo each other.  On registers that hold
    bytes, DEC r after INC r, and INC r after DEC r, leave the value r had,
    for r among B, C, D and E, wrapping through 0xFF and 0x00. *)
Theorem inc_dec_8_inverse (s : CPU.t) :
  regs_in_range s ->
  (CPU._b (CPU.final (CPU.instr_DEC_B (CPU.final (CPU.instr_INC_B s)))) = CPU._b s
   /\ CPU._b (CPU.final (CPU.instr_INC_B (CPU.final (CPU.instr_DEC_B s)))) = CPU._b s)
  /\ (CPU._c (CPU.final (CPU.instr_DEC_C (CPU.final (CPU.instr_INC_C s)))) = CPU._c s
      /\ CPU._c (CPU.final (CPU.instr_INC_C (CPU.final (CPU.instr_DEC_C s)))) = CPU._c s)
  /\ (CPU._d (CPU.final (CPU.instr_DEC_D (CPU.final (CPU.instr_INC_D s)))) = CPU._d s
      /\ CPU._d (CPU.final (CPU.instr_INC_D (CPU.final (CPU.instr_DEC_D s)))) = CPU._d s)
  /\ (CPU._e (CPU.final (CPU.instr_DEC_E (CPU.final (CPU.instr_INC_E s)))) = CPU._e s
      /\ CPU._e (CPU.final (CPU.instr_INC_E (CPU.final (CPU.instr_DEC_E s)))) = CPU._e s).
Proof.
  intros [].
  destruct (byte_there_and_back (CPU._b s)) as (Hb1 & Hb2); [done|].
  destruct (byte_there_and_back (CPU._c s)) as (Hc1 & Hc2); [done|].
  destruct (byte_there_and_back (CPU._d s)) as (Hd1 & Hd2); [done|].
  destruct (byte_there_and_back (CPU._e s)) as (He1 & He2); [done|].
  repeat split.
  - destruct (DEC_B_flags (CPU.final (CPU.instr_INC_B s))) as (-> & _).
    destruct (INC_B_flags s) as (-> & _). exact Hb1.
  - destruct (INC_B_flags (CPU.final (CPU.instr_DEC_B s))) as (-> & _).
    destruct (DEC_B_flags s) as (-> & _). exact Hb2.
  - destruct (DEC_C_flags (CPU.final (CPU.instr_INC_C s))) as (-> & _).
    destruct (INC_C_flags s) as (-> & _). exact Hc1.
  - destruct (INC_C_flags (CPU.final (CPU.instr_DEC_C s))) as (-> & _).
    destruct (DEC_C_flags s) as (-> & _). exact Hc2.
  - destruct (DEC_D_flags (CPU.final (CPU.instr_INC_D s))) as (-> & _).
    destruct (INC_D_flags s) as (-> & _). exact Hd1.
  - destruct (INC_D_flags (CPU.final (CPU.instr_DEC_D s))) as (-> & _).
    destruct (DEC_D_flags s) as (-> & _). exact Hd2.
  - destruct (DEC_E_flags (CPU.final (CPU.instr_INC_E s))) as (-> & _).
    destruct (INC_E_flags s) as (-> & _). exact He1.
  - destruct (INC_E_flags (CPU.final (CPU.instr_DEC_E s))) as (-> & _).
    destruct (DEC_E_flags s) as (-> & _). exact He2.
Qed.

Lemma inc_dec_8_inverse_witness :
  let s := CPU.final (CPU.set_b 0xFF (setup_cpu_with_instructions [0x04; 0x05] 0x0100)) in
  CPU._b (CPU.final (CPU.instr_INC_B s)) = 0x00
  /\ CPU._b (CPU.final (CPU.instr_DEC_B (CPU.final (CPU.instr_INC_B s)))) = 0xFF.
Proof.
  intros s.
  assert (Hs : regs_in_range s) by (split; vm_compute; split; discriminate).
  destruct (inc_dec_8_inverse s Hs) as ((Hb & _) & _).
  split; [vm_compute; reflexivity | exact Hb].
Defined.

Section Driver.
Import CPU.
Implicit Types (s : CPU.t) (fuel k : nat).

(** The loop only ever ends on a halted CPU. *)
Lemma main_loop_ends_halted fuel : forall s s',
  main_loop fuel s = Some (Ok s') -> halted s' = true.
Proof.
  induction fuel as [|fuel IH]; intros s s'; cbn [main_loop]; [discriminate|].
  destruct (halted s) eqn:Hs; [by intros [= <-]|].
  destruct (step s) as [[n|err] s1 t1]; [apply IH | discriminate].
Qed.

(** A CPU that [step] returns unchanged keeps the loop going for ever. *)
Lemma main_loop_fixed_point fuel s n t :
  halted s = false -> step s = Run (Ok n) s t -> main_loop fuel s = None.
Proof.
  intros Hs Hstep. induction fuel as [|fuel IH]; [done|].
  cbn [main_loop]. by rewrite Hs, Hstep.
Qed.

(** [k] steps that return on a running CPU, then the loop from there. *)
Lemma main_loop_steps k : forall fuel s,
  (forall j, (j < k)%nat ->
     halted (run_steps j s) = false
     /\ exists n, outcome (step (run_steps j s)) = Ok n) ->
  main_loop (k + fuel) s = main_loop fuel (run_steps k s).
Proof.
  induction k as [|k IH]; intros fuel s Hk; [done|].
  destruct (Hk 0%nat) as (Hrun & n & Hn); [lia|]. cbn in Hrun, Hn.
  cbn [Nat.add main_loop]. rewrite Hrun.
  destruct (step s) as [[n'|err] s1 t1] eqn:Hstep; cbn in Hn; [|discriminate].
  assert (Hshift : forall j, run_steps j s1 = run_steps (S j) s).
  { intros j. unfold run_steps. rewrite Nat.iter_succ_r. by rewrite Hstep. }
  rewrite IH; [by rewrite Hshift|].
  intros j Hj. rewrite Hshift. apply Hk. lia.
Qed.

Lemma step_JR_self s :
  halted s = false ->
  Memory.read (memory s) (_pc s) = Ok 0x18 ->
  Memory.read (memory s) (Z.land (_pc s + 1) 0xFFFF) = Ok 0xFE ->
  0 <= _pc s <= 0xFFFF ->
  exists t, step s = Run (Ok 3) s t.
Proof.
  intros Hrun Hop Himm Hpc.
  rewrite (step_dispatch s _ _ Hrun Hop lookup_JR_s8).
  cbn [handler cycles]. unfold instr_JR_s8. run_cpu. rewrite Himm. run_cpu.
  rewrite decide_True by lia. eexists. f_equal.
  assert (Hback : Z.land (Z.land (Z.land (_pc s + 1) 0xFFFF + 1) 0xFFFF
                          + (0xFE - 0x100)) 0xFFFF = _pc s).
  { rewrite !land_16_mod. change (2 ^ 16) with 65536.
    Z.div_mod_to_equations. lia. }
  rewrite Hback. by destruct s.
Qed.

End Driver.

(** X27.  The driver loop.  The loop [while not cpu.halted: cpu.step()]
    ends only on a halted CPU; if the first [k] steps return on a running
    CPU and leave it halted, the loop ends with the CPU those [k] steps
    leave; and on the jump-to-itself [18 FE] every [step] returns 3 cycles
    with the CPU exactly as it was, so the loop never ends. *)
Theorem driver_loop (s : CPU.t) :
  (forall fuel s', main_loop fuel s = Some (Ok s') -> CPU.halted s' = true)
  /\ (forall k : nat,
        (forall j, (j < k)%nat ->
           CPU.halted (run_steps j s) = false
           /\ exists n, CPU.outcome (CPU.step (run_steps j s)) = Ok n) ->
        CPU.halted (run_steps k s) = true ->
        forall fuel, main_loop (k + S fuel) s = Some (Ok (run_steps k s)))
  /\ (CPU.halted s = false ->
      Memory.read (CPU.memory s) (CPU._pc s) = Ok 0x18 ->
      Memory.read (CPU.memory s) (Z.land (CPU._pc s + 1) 0xFFFF) = Ok 0xFE ->
      0 <= CPU._pc s <= 0xFFFF ->
      CPU.outcome (CPU.step s) = Ok 3
      /\ CPU.final (CPU.step s) = s
      /\ forall fuel, main_loop fuel s = None).
Proof.
  split; [intros fuel s'; apply main_loop_ends_halted|]. split.
  - intros k Hk Hhalt fuel. rewrite main_loop_steps by done.
    cbn [main_loop]. by rewrite Hhalt.
  - intros Hrun Hop Himm Hpc.
    destruct (step_JR_self s Hrun Hop Himm Hpc) as [t Hstep].
    rewrite Hstep. split; [done|]. split; [done|].
    intros fuel. by apply (main_loop_fixed_point fuel s 3 t).
Qed.

Lemma driver_loop_witness :
  (forall fuel, main_loop fuel (setup_cpu_with_instructions [0x18; 0xFE] 0x0100) = None)
  /\ main_loop 5 (setup_cpu_with_instructions [0x04; 0x76] 0x0100)
     = Some (Ok (run_steps 2 (setup_cpu_with_instructions [0x04; 0x76] 0x0100))).
Proof.
  split.
  - destruct (driver_loop (setup_cpu_with_instructions [0x18; 0xFE] 0x0100))
      as (_ & _ & Hloop).
    apply Hloop; [reflexivity | vm_compute; reflexivity | vm_compute; reflexivity
                 | vm_compute; split; discriminate].
  - destruct (driver_loop (setup_cpu_with_instructions [0x04; 0x76] 0x0100))
      as (_ & Hends & _).
    apply (Hends 2%nat); [|vm_compute; reflexivity].
    intros j Hj. destruct j as [|[|j]]; [| |lia].
    + split; [reflexivity | exists 1; vm_compute; reflexivity].
    + split; [vm_compute; reflexivity | exists 1; vm_compute; reflexivity].
Defined.
